(** * Stock-management dashboard: the SerpApi quote client

    A shallow embedding of [src/lib/serpapi-client.ts] (and of the
    simulated provider in [src/lib/stock-data.ts]): the response
    normaliser, the per-symbol freshness cache, the batched fetcher and
    the fallback synthesiser, followed by the properties proved of them.

    Conventions of the embedding.
    - A JavaScript value that arrives from the upstream provider is a
      [JsValue]; TypeScript's interfaces are erased at run time, so the
      normaliser is modelled on arbitrary values, not only on well-typed
      ones.
    - JavaScript numbers are modelled as exact rationals ([Q]), with
      [JNaN] for the one non-number the code can produce; the rounding
      error of the IEEE double operations is abstracted away, and the
      statements about computed numbers are bounds with closed ends and
      tolerances, so that they do not rest on exactness.
    - An object literal used as a table is read through its own keys
      and through the properties it inherits from [Object.prototype].
    - [Date.now()], [new Date().toISOString()], [Math.random()] and the
      upstream reply are inputs of the functions that read them.
    - An [async] function is cut at its [await]: the part that runs
      before the suspension and the part that runs when the awaited
      promise settles. *)

From Stdlib Require Import ZArith QArith Qround Qminmax String Ascii List Lia Lqa.
From Stdlib Require Import Sorting.Permutation.
From stdpp Require Import gmap strings list fin_maps pretty.

Set Warnings "-register-all".

Local Open Scope string_scope.
Local Open Scope Z_scope.

(** ** JavaScript values *)

Module Js.

Inductive JsValue : Type :=
| JUndefined
| JNull
| JBool (b : bool)
| JNum (n : Q)
| JNaN
| JStr (s : string)
| JArr (items : list JsValue)
| JObj (props : list (string * JsValue)).

(** ToBoolean: [undefined], [null], [false], [0], [NaN] and the empty
    string are falsy; every object and array is truthy. *)
Definition truthy (v : JsValue) : bool :=
  match v with
  | JUndefined | JNull | JNaN => false
  | JBool b => b
  | JNum n => negb (Qnum n =? 0)
  | JStr s => negb (String.eqb s "")
  | JArr _ | JObj _ => true
  end.

(** [a || b] on values; [b] is only used when [a] is falsy. *)
Definition or_else (a b : JsValue) : JsValue :=
  if truthy a then a else b.

(** What a statement can end in: a value, or a thrown error. *)
Inductive Error : Type :=
| TypeError
| NoDataReceived.

Inductive Completion (A : Type) : Type :=
| Normal (a : A)
| Abrupt (e : Error).
Arguments Normal {A} a.
Arguments Abrupt {A} e.

(** Sequencing: an abrupt completion skips the rest of the block. *)
#[global] Instance completion_bind : MBind Completion :=
  fun A B (k : A -> Completion B) (c : Completion A) =>
    match c with
    | Normal a => k a
    | Abrupt e => Abrupt e
    end.

#[global] Instance completion_ret : MRet Completion := fun A a => Normal a.

(** [try { body } catch (error) { handler }] *)
Definition try_catch {A} (body : Completion A) (handler : Error -> A) : A :=
  match body with
  | Normal a => a
  | Abrupt e => handler e
  end.

(** First binding of a key in a property list. *)
Fixpoint assoc {A} (k : string) (l : list (string * A)) : option A :=
  match l with
  | [] => None
  | (k', v) :: rest => if String.eqb k k' then Some v else assoc k rest
  end.

(** Property read [v.k]. Reading a property of [undefined] or [null]
    throws a TypeError; a missing property reads as [undefined]. On
    primitives and arrays only [length] is modelled: the keys this
    program reads are neither indices nor inherited methods. *)
Definition get (v : JsValue) (k : string) : Completion JsValue :=
  match v with
  | JUndefined | JNull => Abrupt TypeError
  | JObj props => Normal (default JUndefined (assoc k props))
  | JArr items =>
      Normal (if String.eqb k "length"
              then JNum (inject_Z (Z.of_nat (List.length items)))
              else JUndefined)
  | JStr s =>
      Normal (if String.eqb k "length"
              then JNum (inject_Z (Z.of_nat (String.length s)))
              else JUndefined)
  | JBool _ | JNum _ | JNaN => Normal JUndefined
  end.

(** Optional chaining [v?.k]: [undefined] when [v] is nullish. *)
Definition get_opt (v : JsValue) (k : string) : Completion JsValue :=
  match v with
  | JUndefined | JNull => Normal JUndefined
  | _ => get v k
  end.

End Js.
Import Js.

(** ** The canonical quote record *)

Record SerpApiStockData : Type := mkStockData {
  symbol : string;
  price : JsValue;
  change : JsValue;
  changePercent : JsValue;
  peRatio : JsValue;
  marketCap : JsValue;
  earnings : JsValue;
  revenue : JsValue;
  lastUpdated : string
}.

(** ** Response normaliser *)

(** The body of the [try] block of [parseGoogleFinanceResponse].
    [iso] is the value of [new Date().toISOString()]. *)
Definition parse_body (sym : string) (iso : string) (response : JsValue)
  : Completion (option SerpApiStockData) :=
  kg ← get response "knowledge_graph";
  data ← (if truthy kg then Normal kg else get response "summary");
  financials ← get response "financials";
  if negb (truthy data) then Normal None
  else
    p ← get data "price";
    c ← get data "change";
    cp ← get data "change_percent";
    f_pe ← get_opt financials "pe_ratio";
    pe ← (if truthy f_pe then Normal f_pe else get data "pe_ratio");
    f_mc ← get_opt financials "market_cap";
    mc ← (if truthy f_mc then Normal f_mc else get data "market_cap");
    f_ni ← get_opt financials "net_income";
    ea ← (if truthy f_ni then Normal f_ni else get data "earnings");
    f_rev ← get_opt financials "revenue";
    rev ← (if truthy f_rev then Normal f_rev else get data "revenue");
    Normal (Some {| symbol := sym;
                    price := or_else p (JNum 0);
                    change := or_else c (JNum 0);
                    changePercent := or_else cp (JNum 0);
                    peRatio := pe;
                    marketCap := mc;
                    earnings := ea;
                    revenue := rev;
                    lastUpdated := iso |}).

(** [parseGoogleFinanceResponse]: the result, and the lines written
    with [console.error]. *)
Definition parseGoogleFinanceResponse (sym : string) (iso : string)
    (response : JsValue) : option SerpApiStockData * list string :=
  try_catch
    (r ← parse_body sym iso response ; Normal (r, []))
    (fun _ => (None, ["Error parsing response for " ++ sym ++ ":"])).

(** ** Object literals used as tables *)

(** The property names every object literal inherits from
    [Object.prototype] (ECMAScript, Annex B included). Each of them
    reads as a function, [__proto__] as an object: a truthy value that
    is neither a string nor a number. *)
Definition Object_prototype : list string :=
  [ "constructor"; "hasOwnProperty"; "isPrototypeOf"; "propertyIsEnumerable";
    "toLocaleString"; "toString"; "valueOf"; "__proto__";
    "__defineGetter__"; "__defineSetter__"; "__lookupGetter__"; "__lookupSetter__" ].

Definition inherited (k : string) : bool := existsb (String.eqb k) Object_prototype.

(** What [table[key]] finds: an entry of the literal, an inherited
    member, or nothing ([undefined]). *)
Inductive Member (A : Type) : Type :=
| Own (a : A)
| Inherited
| Missing.
Arguments Own {A} a.
Arguments Inherited {A}.
Arguments Missing {A}.

Definition member {A} (k : string) (table : list (string * A)) : Member A :=
  match assoc k table with
  | Some v => Own v
  | None => if inherited k then Inherited else Missing
  end.

(** ** Symbol mapper *)

Definition STOCK_SYMBOL_MAPPINGS : list (string * string) :=
  [ ("HDFCBANK.NS", "HDFCBANK:NSE");
    ("BAJFINANCE.NS", "BAJFINANCE:NSE");
    ("ICICIBANK.NS", "ICICIBANK:NSE");
    ("BAJAJ-AUTO.NS", "BAJAJ-AUTO:NSE");
    ("SAVANIFIN.NS", "SAVANIFIN:NSE");
    ("AFFLE.NS", "AFFLE:NSE");
    ("LTIM.NS", "LTIM:NSE");
    ("KPITTECH.NS", "KPITTECH:NSE");
    ("TATATECH.NS", "TATATECH:NSE");
    ("BLSE.NS", "BLSE:NSE");
    ("TANLA.NS", "TANLA:NSE");
    ("DMART.NS", "DMART:NSE");
    ("TATACONSUM.NS", "TATACONSUM:NSE");
    ("PIDILITE.NS", "PIDILITE:NSE");
    ("TATAPOWER.NS", "TATAPOWER:NSE");
    ("KPIGREEN.NS", "KPIGREEN:NSE");
    ("SUZLON.NS", "SUZLON:NSE");
    ("GENSOL.NS", "GENSOL:NSE");
    ("HARIOMPIPE.NS", "HARIOMPIPE:NSE");
    ("ASTRAL.NS", "ASTRAL:NSE");
    ("POLYCAB.NS", "POLYCAB:NSE");
    ("CLEANSCI.NS", "CLEANSCI:NSE");
    ("DEEPAKNTR.NS", "DEEPAKNTR:NSE");
    ("FINEORG.NS", "FINEORG:NSE");
    ("GRAVITA.NS", "GRAVITA:NSE");
    ("SBILIFE.NS", "SBILIFE:NSE");
    ("INFY.NS", "INFY:NSE");
    ("HAPPSTMNDS.NS", "HAPPSTMNDS:NSE");
    ("EASEMYTRIP.NS", "EASEMYTRIP:NSE") ].

(** The value passed as [q]: a name, or the member of
    [Object.prototype] called [k]. *)
Inductive Query : Type :=
| Name (s : string)
| Builtin (k : string).

Coercion Name : string >-> Query.

(** [STOCK_SYMBOL_MAPPINGS[symbol] || symbol]. An empty mapped string
    would be falsy; an inherited member is truthy and is kept. *)
Definition mapSymbol (sym : string) : Query :=
  match member sym STOCK_SYMBOL_MAPPINGS with
  | Own m => if String.eqb m "" then Name sym else Name m
  | Inherited => Builtin sym
  | Missing => Name sym
  end.

(** ** The client and its environment *)

Record CacheEntry : Type := mkEntry {
  data : SerpApiStockData;
  timestamp : Z
}.

(** The argument object of one [getJson] call. *)
Record GetJsonParams : Type := mkParams {
  engine : string;
  q : Query;
  api_key : string
}.

(** The client ([apiKey], [cache]) together with what it has done to
    the outside: the [getJson] calls issued, the lines written with
    [console.error] and the delays requested with [setTimeout], each
    list oldest first. *)
Record World : Type := mkWorld {
  apiKey : string;
  cache : gmap string CacheEntry;
  requests : list GetJsonParams;
  console : list string;
  timers : list Z
}.

Definition CACHE_DURATION : Z := 15000.

Definition newClient (key : string) : World :=
  {| apiKey := key; cache := ∅; requests := []; console := []; timers := [] |}.

Definition set_cache (c : gmap string CacheEntry) (w : World) : World :=
  {| apiKey := apiKey w; cache := c; requests := requests w;
     console := console w; timers := timers w |}.

Definition issue (p : GetJsonParams) (w : World) : World :=
  {| apiKey := apiKey w; cache := cache w; requests := requests w ++ [p];
     console := console w; timers := timers w |}.

Definition console_error (lines : list string) (w : World) : World :=
  {| apiKey := apiKey w; cache := cache w; requests := requests w;
     console := console w ++ lines; timers := timers w |}.

Definition setTimeout (ms : Z) (w : World) : World :=
  {| apiKey := apiKey w; cache := cache w; requests := requests w;
     console := console w; timers := timers w ++ [ms] |}.

(** The cache test shared by the two reads:
    [cached && now - cached.timestamp < ttl]. *)
Definition fresh (now ttl : Z) (cached : option CacheEntry) : option SerpApiStockData :=
  match cached with
  | Some e => if now - timestamp e <? ttl then Some (data e) else None
  | None => None
  end.

(** ** fetchStockData *)

(** How far [fetchStockData] gets before it suspends. *)
Inductive Begun : Type :=
| Hit (d : SerpApiStockData)
| Pending.

(** Lines 95-115, up to the [await]: the strict-TTL cache check at
    [now = Date.now()] and, on a miss, the [getJson] call. *)
Definition fetch_begin (now : Z) (sym : string) (w : World) : Begun * World :=
  match fresh now CACHE_DURATION (cache w !! sym) with
  | Some d => (Hit d, w)
  | None =>
      (Pending,
       issue {| engine := "google_finance"; q := mapSymbol sym; api_key := apiKey w |} w)
  end.

(** Lines 108-131, from the callback of [getJson] on: [json] is the
    value handed to the callback, [now] the value of [Date.now()] at
    line 123 and [iso] the time stamp the normaliser writes. *)
Definition fetch_settle (sym : string) (json : JsValue) (now : Z) (iso : string)
    (w : World) : Completion (option SerpApiStockData) * World :=
  try_catch
    (response ← (if truthy json then Normal json else Abrupt NoDataReceived);
     let '(stockData, lines) := parseGoogleFinanceResponse sym iso response in
     let w1 := console_error lines w in
     let w2 := match stockData with
               | Some d => set_cache (<[sym := {| data := d; timestamp := now |}]> (cache w1)) w1
               | None => w1
               end in
     Normal (Normal stockData, w2))
    (fun _ => (Normal None, console_error ["Error fetching data for " ++ sym ++ ":"] w)).

(** What one awaited call of [fetchStockData] reads from outside. *)
Record FetchEnv : Type := mkFetchEnv {
  now_check : Z;      (* Date.now() at line 96 *)
  reply : JsValue;    (* the json handed to the getJson callback *)
  now_store : Z;      (* Date.now() at line 123 *)
  iso_stamp : string  (* new Date().toISOString() at line 185 *)
}.

Definition fetchStockData (env : FetchEnv) (sym : string) (w : World)
  : Completion (option SerpApiStockData) * World :=
  match fetch_begin (now_check env) sym w with
  | (Hit d, w1) => (Normal (Some d), w1)
  | (Pending, w1) => fetch_settle sym (reply env) (now_store env) (iso_stamp env) w1
  end.

(** ** getCachedData and clearCache *)

Definition getCachedData (now : Z) (sym : string) (w : World) : option SerpApiStockData :=
  fresh now (CACHE_DURATION * 2) (cache w !! sym).

Definition clearCache (w : World) : World := set_cache ∅ w.

(** ** fetchMultipleStocks *)

(** What the batched fetcher reads from outside for the symbol at one
    position of the input array: the upstream reply and how long it
    takes to arrive, the time stamp the normaliser writes, and by how
    much the 300 ms timer fires late. Durations are in milliseconds. *)
Record Upstream : Type := mkUpstream {
  up_reply : JsValue;
  up_latency : N;
  up_iso : string;
  up_lag : N
}.

Record BatchEnv : Type := mkBatchEnv {
  upstream : nat -> Upstream;   (* by position in [symbols] *)
  gap_lag : nat -> N            (* lateness of the 1000 ms timer set at index [i] *)
}.

(** One promise of [batch.map(async (symbol) => ...)]. *)
Record Task : Type := mkTask {
  pos : nat;
  tsym : string;
  begun : Begun
}.

(** The running state of [fetchMultipleStocks]: the [results] map, the
    client, a rejection if one occurred, the current time, and (for the
    statements below) the batches issued and the value every awaited
    [fetchStockData] settled with, oldest first. *)
Record Run : Type := mkRun {
  results : gmap string SerpApiStockData;
  world : World;
  failure : option Error;
  clock : Z;
  batches : list (list string);
  settled : list (string * option SerpApiStockData)
}.

Definition batchSize : nat := 3.

(** [symbols.slice(i, j)] for [0 <= i <= j]. *)
Definition slice {A} (i j : nat) (l : list A) : list A :=
  take (j - i) (drop i l).

(** [batch.map] calls the arrow function on each symbol in turn; each
    call runs synchronously up to its first suspension, so the cache
    checks of a batch all happen at its start, before any reply. *)
Fixpoint begin_batch (now : Z) (p : nat) (batch : list string) (w : World)
  : list Task * World :=
  match batch with
  | [] => ([], w)
  | s :: rest =>
      let '(b, w1) := fetch_begin now s w in
      let '(ts, w2) := begin_batch now (S p) rest w1 in
      ({| pos := p; tsym := s; begun := b |} :: ts, w2)
  end.

Definition is_hit (t : Task) : bool :=
  match begun t with Hit _ => true | Pending => false end.

(** Pending tasks resume in the order their replies arrive. *)
Fixpoint insert_by_latency (env : BatchEnv) (t : Task) (l : list Task) : list Task :=
  match l with
  | [] => [t]
  | u :: rest =>
      if (up_latency (upstream env (pos t)) <=? up_latency (upstream env (pos u)))%N
      then t :: l
      else u :: insert_by_latency env t rest
  end.

Fixpoint sort_by_latency (env : BatchEnv) (l : list Task) : list Task :=
  match l with
  | [] => []
  | t :: rest => insert_by_latency env t (sort_by_latency env rest)
  end.

(** Cache hits resume first (their promise is already resolved), in
    array order; then the pending tasks as their replies arrive. *)
Definition resume_order (env : BatchEnv) (tasks : list Task) : list Task :=
  filter (fun t => is_hit t = true) tasks
  ++ sort_by_latency env (filter (fun t => is_hit t = false) tasks).

(** Lines 143-148 for one task, from the moment its [fetchStockData]
    settles: [start] is the time the batch was issued. The [clock] of
    the run is advanced to the latest moment a 300 ms timer fired. *)
Definition resume_task (env : BatchEnv) (start : Z) (t : Task) (r : Run) : Run :=
  let up := upstream env (pos t) in
  let done_at := match begun t with
                 | Hit _ => start
                 | Pending => start + Z.of_N (up_latency up)
                 end in
  let '(res, w1) := match begun t with
                    | Hit d => (Normal (Some d), world r)
                    | Pending => fetch_settle (tsym t) (up_reply up) done_at (up_iso up) (world r)
                    end in
  match res with
  | Abrupt e =>
      {| results := results r; world := w1;
         failure := Some (default e (failure r)); clock := clock r;
         batches := batches r; settled := settled r |}
  | Normal d =>
      {| results := match d with
                    | Some v => <[tsym t := v]> (results r)
                    | None => results r
                    end;
         world := setTimeout 300 w1;
         failure := failure r;
         clock := Z.max (clock r) (done_at + 300 + Z.of_N (up_lag up));
         batches := batches r;
         settled := settled r ++ [(tsym t, d)] |}
  end.

(** One iteration of the [for] loop up to [await Promise.all(promises)]. *)
Definition run_batch (env : BatchEnv) (i : nat) (symbols : list string) (r : Run) : Run :=
  let batch := slice i (i + batchSize) symbols in
  let start := clock r in
  let '(tasks, w1) := begin_batch start i batch (world r) in
  let r1 := {| results := results r; world := w1; failure := failure r;
               clock := start; batches := batches r ++ [batch];
               settled := settled r |} in
  foldl (fun acc t => resume_task env start t acc) r1 (resume_order env tasks).

(** Lines 154-156: the delay between batches. *)
Definition batch_gap (env : BatchEnv) (i : nat) (symbols : list string) (r : Run) : Run :=
  if (i + batchSize <? List.length symbols)%nat
  then {| results := results r; world := setTimeout 1000 (world r);
          failure := failure r;
          clock := clock r + 1000 + Z.of_N (gap_lag env i);
          batches := batches r; settled := settled r |}
  else r.

(** The [for] loop from index [i]; [fuel] bounds the iterations left.
    A rejected [Promise.all] abandons the loop. *)
Fixpoint batch_loop (fuel : nat) (env : BatchEnv) (symbols : list string)
    (i : nat) (r : Run) : option Run :=
  match fuel with
  | O => None
  | S fuel' =>
      if (i <? List.length symbols)%nat then
        let r1 := run_batch env i symbols r in
        match failure r1 with
        | Some _ => Some r1
        | None => batch_loop fuel' env symbols (i + batchSize) (batch_gap env i symbols r1)
        end
      else Some r
  end.

(** [fetchMultipleStocks(symbols)] called at time [now] on client [w]. *)
Definition fetchMultipleStocks (env : BatchEnv) (now : Z) (symbols : list string)
    (w : World) : option Run :=
  batch_loop (S (List.length symbols)) env symbols 0
    {| results := ∅; world := w; failure := None; clock := now;
       batches := []; settled := [] |}.


(** ** Fallback synthesiser *)

Local Open Scope Q_scope.

Definition basePrices : list (string * Q) :=
  [ ("HDFCBANK.NS", 1770); ("BAJFINANCE.NS", 6500); ("ICICIBANK.NS", 1200);
    ("BAJAJ-AUTO.NS", 9500); ("SAVANIFIN.NS", 180); ("AFFLE.NS", 1200);
    ("LTIM.NS", 5800); ("KPITTECH.NS", 1800); ("TATATECH.NS", 900);
    ("BLSE.NS", 90); ("TANLA.NS", 480); ("DMART.NS", 3500);
    ("TATACONSUM.NS", 850); ("PIDILITE.NS", 2800); ("TATAPOWER.NS", 350);
    ("KPIGREEN.NS", 200); ("SUZLON.NS", 45); ("GENSOL.NS", 150);
    ("HARIOMPIPE.NS", 250); ("ASTRAL.NS", 2200); ("POLYCAB.NS", 4500);
    ("CLEANSCI.NS", 1650); ("DEEPAKNTR.NS", 2650); ("FINEORG.NS", 5200);
    ("GRAVITA.NS", 1450); ("SBILIFE.NS", 1580); ("INFY.NS", 1450);
    ("HAPPSTMNDS.NS", 920); ("EASEMYTRIP.NS", 38) ].

(** The value of [table[symbol] || fallback] for a table of numbers:
    a number, or a member of [Object.prototype]. *)
Inductive Looked : Type :=
| Price (p : Q)
| InheritedMember.

(** A missing entry and a zero entry both give [fallback]; an
    inherited member is truthy and is kept. *)
Definition lookup_or (table : list (string * Q)) (sym : string) (fallback : Q) : Looked :=
  match member sym table with
  | Own p => Price (if (Qnum p =? 0)%Z then fallback else p)
  | Inherited => InheritedMember
  | Missing => Price fallback
  end.

(** [Math.max] and [Math.round] (halves round up) on exact numbers. *)
Definition Math_max (a b : Q) : Q := if Qle_bool a b then b else a.

Definition Math_round (x : Q) : Q := inject_Z (Qfloor (x + (1 # 2))).

(** [hay.includes(needle)] *)
Fixpoint includes (hay needle : string) : bool :=
  String.prefix needle hay
  || match hay with
     | EmptyString => false
     | String _ rest => includes rest needle
     end.

(** [x.toFixed(0)] for [0 <= x < 1e21]: the nearest integer (halves
    up) in decimal. *)
Definition toFixed0 (x : Q) : string := pretty (Qfloor (x + (1 # 2))).

Definition crore (x : Q) : JsValue := JStr ("₹" ++ toFixed0 x ++ " Cr").

(** Lines 260-263 and 275-277 for a base price that is a number: the
    returned price, change and changePercent. *)
Definition quote_numbers (basePrice trend randomComponent : Q)
  : JsValue * JsValue * JsValue :=
  let priceChange := basePrice * (trend + randomComponent) in
  let newPrice := Math_max (basePrice + priceChange) (basePrice * (1 # 2)) in
  let change_ := newPrice - basePrice in
  let changePercent_ := (change_ / basePrice) * 100 in
  (JNum (Math_round (newPrice * 100) / 100),
   JNum (Math_round (change_ * 100) / 100),
   JNum (Math_round (changePercent_ * 100) / 100)).

(** [getFallbackStockData(symbol)]: [random k] is the value of the
    [k]-th call of [Math.random()] (from 0) and [iso] the value of
    [new Date().toISOString()]. The sector branches draw once more.
    When the base price is a member of [Object.prototype], the products
    and differences with it are [NaN], and so are [Math.max] and
    [Math.round] of them. *)
Definition getFallbackStockData (random : nat -> Q) (iso : string) (sym : string)
  : SerpApiStockData :=
  let volatility := 3 # 100 in
  let trend := (random 0%nat - (1 # 2)) * (2 # 100) in
  let randomComponent := (random 1%nat - (1 # 2)) * volatility in
  let '(price_, change_, changePercent_) :=
    match lookup_or basePrices sym 1000 with
    | Price basePrice => quote_numbers basePrice trend randomComponent
    | InheritedMember => (JNaN, JNaN, JNaN)
    end in
  let pe0 := 15 + random 2%nat * 25 in
  let '(pe, k) :=
    if includes sym "TECH" || includes sym "INFY" || includes sym "LTIM"
    then (20 + random 3%nat * 15, 4%nat)
    else if includes sym "BANK" || includes sym "FINANCE"
    then (10 + random 3%nat * 15, 4%nat)
    else (pe0, 3%nat) in
  {| symbol := sym;
     price := price_;
     change := change_;
     changePercent := changePercent_;
     peRatio := JNum (Math_round (pe * 10) / 10);
     marketCap := crore (random k * 100000 + 10000);
     earnings := crore (random (S k) * 5000 + 500);
     revenue := crore (random (S (S k)) * 20000 + 2000);
     lastUpdated := iso |}.

(** The number a record field holds (0 when it is not a number). *)
Definition num (v : JsValue) : Q :=
  match v with JNum n => n | _ => 0 end.

(** ** The simulated provider ([stock-data.ts]) *)

Record GoogleFinanceData : Type := mkGoogleFinanceData {
  g_symbol : string;
  g_peRatio : Q;
  g_earnings : JsValue;
  g_revenue : JsValue
}.

(** [fetchGoogleFinanceData(symbols)]: the [forEach] callback draws
    three random numbers per symbol, from draw [k] on. *)
Fixpoint simulate (random : nat -> Q) (k : nat) (symbols : list string)
    (acc : gmap string GoogleFinanceData) : gmap string GoogleFinanceData :=
  match symbols with
  | [] => acc
  | s :: rest =>
      simulate random (k + 3) rest
        (<[s := {| g_symbol := s;
                   g_peRatio := 15 + random k * 25;
                   g_earnings := crore (random (k + 1)%nat * 50000 + 5000);
                   g_revenue := crore (random (k + 2)%nat * 100000 + 10000) |}]> acc)
  end.

Definition fetchGoogleFinanceData (random : nat -> Q) (symbols : list string)
  : gmap string GoogleFinanceData :=
  simulate random 0 symbols ∅.

Definition stockDataBasePrices : list (string * Q) :=
  [ ("HDFCBANK.NS", 1770); ("BAJFINANCE.NS", 6500); ("RELIANCE.NS", 2450);
    ("TATACONSUM.NS", 850); ("INFY.NS", 1450); ("ICICIBANK.NS", 1200);
    ("POLYCAB.NS", 4500); ("KPITTECH.NS", 1800); ("TATAPOWER.NS", 350);
    ("PIDILITE.NS", 2800); ("AFFLE.NS", 1200); ("TANLA.NS", 800);
    ("GENSOL.NS", 150); ("BLSE.NS", 90); ("TATATECH.NS", 900);
    ("KPIGREEN.NS", 200); ("SUZLON.NS", 45); ("HARIOMPIPE.NS", 250);
    ("SAVANI.NS", 180); ("DMART.NS", 3500) ].

Definition getBasePriceForSymbol (sym : string) : Looked :=
  lookup_or stockDataBasePrices sym 1000.

Local Close Scope Q_scope.

(** ** The singleton client

    [getSerpApiClient()]: [SERPAPI_KEY] is the value of
    [process.env.SERPAPI_KEY] ([None] when unset) and [serpApiClient]
    the module variable; the result is the client returned and the new
    value of the variable. *)
Definition getSerpApiClient (SERPAPI_KEY : option string) (serpApiClient : option World)
  : World * option World :=
  match serpApiClient with
  | Some c => (c, Some c)
  | None =>
      let key := match SERPAPI_KEY with
                 | Some k => if String.eqb k "" then "demo_key" else k
                 | None => "demo_key"
                 end in
      (newClient key, Some (newClient key))
  end.

(** ** Vocabulary of the statements *)

(** The value of [v.k] where the read does not throw. *)
Definition read (v : JsValue) (k : string) : JsValue :=
  match get v k with Normal x => x | Abrupt _ => JUndefined end.

(** The value of [v?.k]. *)
Definition read_opt (v : JsValue) (k : string) : JsValue :=
  match get_opt v k with Normal x => x | Abrupt _ => JUndefined end.

(** The shape the normaliser works on: [knowledge_graph || summary]. *)
Definition selected_shape (response : JsValue) : JsValue :=
  or_else (read response "knowledge_graph") (read response "summary").

(** A property list with every binding of [k] removed: the object
    with the field omitted. *)
Definition without (k : string) (props : list (string * JsValue))
  : list (string * JsValue) :=
  List.filter (fun kv => negb (String.eqb k (fst kv))) props.

(** A field the way a per-field precedence would resolve it: the
    detailed shape's own field if it has one, else the summary's, else 0. *)
Definition own_field (shape : JsValue) (k : string) : option JsValue :=
  match shape with JObj props => assoc k props | _ => None end.

Definition per_field (response : JsValue) (k : string) : JsValue :=
  match own_field (read response "knowledge_graph") k with
  | Some v => v
  | None => default (JNum 0) (own_field (read response "summary") k)
  end.

(** The record the normaliser builds from a shape and a financials block. *)
Definition financial_or (financials shape : JsValue) (kf kd : string) : JsValue :=
  or_else (read_opt financials kf) (read shape kd).

Definition normalised (sym iso : string) (financials shape : JsValue) : SerpApiStockData :=
  {| symbol := sym;
     price := or_else (read shape "price") (JNum 0);
     change := or_else (read shape "change") (JNum 0);
     changePercent := or_else (read shape "change_percent") (JNum 0);
     peRatio := financial_or financials shape "pe_ratio" "pe_ratio";
     marketCap := financial_or financials shape "market_cap" "market_cap";
     earnings := financial_or financials shape "net_income" "earnings";
     revenue := financial_or financials shape "revenue" "revenue";
     lastUpdated := iso |}.

(** What an awaited [fetchStockData] that went upstream settles with. *)
Definition settle_value (sym : string) (json : JsValue) (iso : string)
  : option SerpApiStockData :=
  if truthy json && truthy (selected_shape json)
  then Some (normalised sym iso (read json "financials") (selected_shape json))
  else None.

(** [results.set(symbol, data)] for every non-null outcome, in order. *)
Definition record_outcomes (m : gmap string SerpApiStockData)
    (outs : list (string * option SerpApiStockData)) : gmap string SerpApiStockData :=
  foldl (fun acc so => match snd so with
                       | Some v => <[fst so := v]> acc
                       | None => acc
                       end) m outs.

(** A list cut into consecutive groups of three (the last one shorter). *)
Fixpoint chunks (l : list string) : list (list string) :=
  match l with
  | [] => []
  | a :: b :: c :: rest => [a; b; c] :: chunks rest
  | short => [short]
  end.

(** The delays a sequence of batches asks for: 300 per symbol of a
    batch, and 1000 after every batch but the last. *)
Fixpoint pacing (bs : list (list string)) : list Z :=
  match bs with
  | [] => []
  | [b] => replicate (List.length b) 300
  | b :: rest => replicate (List.length b) 300 ++ [1000] ++ pacing rest
  end.

Definition sumZ (l : list Z) : Z := foldr Z.add 0 l.

(** An environment in which every reply is [json] and arrives at once,
    and no timer fires late. *)
Definition prompt (json : JsValue) : BatchEnv :=
  {| upstream := fun _ => {| up_reply := json; up_latency := 0; up_iso := "t";
                             up_lag := 0 |};
     gap_lag := fun _ => 0%N |}.

(** The least time [n] batches can take: 300 for each, 1000 between. *)
Definition min_elapsed (n : nat) : Z :=
  match n with
  | O => 0
  | S k => 300 + 1300 * Z.of_nat k
  end.

(** The value the awaited [fetchStockData] of a task settles with. *)
Definition task_value (env : BatchEnv) (t : Task) : option SerpApiStockData :=
  match begun t with
  | Hit v => Some v
  | Pending => settle_value (tsym t) (up_reply (upstream env (pos t)))
                 (up_iso (upstream env (pos t)))
  end.

Definition task_done_at (env : BatchEnv) (start : Z) (t : Task) : Z :=
  match begun t with
  | Hit _ => start
  | Pending => start + Z.of_N (up_latency (upstream env (pos t)))
  end.

Definition resume_all (env : BatchEnv) (start : Z) (ts : list Task) (r : Run) : Run :=
  foldl (fun acc t => resume_task env start t acc) r ts.

(** Every base price is a whole number of at least 38. *)
Definition whole_price (p : Q) : Prop := exists z : Z, p = inject_Z z /\ (38 <= z)%Z.

(** Every entry of the cache holds a record of the symbol it is filed under. *)
Definition cache_consistent (w : World) : Prop :=
  forall s e, cache w !! s = Some e -> symbol (data e) = s.

(** The request [fetchStockData] sends for a symbol. *)
Definition request_for (w : World) (sym : string) : GetJsonParams :=
  {| engine := "google_finance"; q := mapSymbol sym; api_key := apiKey w |}.

(** A key without its last three characters. *)
Definition stem (k : string) : string :=
  String.substring 0 (String.length k - 3) k.

(** No fresh entry for the symbol under the strict TTL. *)
Definition stale (now : Z) (w : World) (sym : string) : bool :=
  match fresh now CACHE_DURATION (cache w !! sym) with
  | Some _ => false
  | None => true
  end.

(** Every record of the result map is the record the cache holds for
    its symbol. *)
Definition results_cached (r : Run) : Prop :=
  forall s d, results r !! s = Some d ->
              exists e, cache (world r) !! s = Some e /\ data e = d.



(** ** Sample inputs

    The scenario of the specification: symbol HDFCBANK.NS, a reply with
    only the summary shape. *)

Definition sample_reply : JsValue :=
  JObj [("summary", JObj [("price", JNum 1800); ("change", JNum 10);
                          ("change_percent", JNum (56 # 100))])].

Definition sample_quote (iso : string) : SerpApiStockData :=
  normalised "HDFCBANK.NS" iso JUndefined
    (JObj [("price", JNum 1800); ("change", JNum 10);
           ("change_percent", JNum (56 # 100))]).

(** A client whose cache holds the sample quote, captured at time [T]. *)
Definition sample_world (T : Z) : World :=
  set_cache {[ "HDFCBANK.NS" := {| data := sample_quote "t0"; timestamp := T |} ]}
    (newClient "demo_key").

(** Replies that each take 120 ms; timers fire on time. *)
Definition sample_env : BatchEnv :=
  {| upstream := fun _ => {| up_reply := sample_reply; up_latency := 120;
                             up_iso := "t1"; up_lag := 0 |};
     gap_lag := fun _ => 0%N |}.

Definition round1 (x : Q) : Q := (Math_round (x * 10) / 10)%Q.

(** The sector tests of the fallback. *)
Definition is_tech (sym : string) : bool :=
  includes sym "TECH" || includes sym "INFY" || includes sym "LTIM".
Definition is_financial (sym : string) : bool :=
  includes sym "BANK" || includes sym "FINANCE".


(** A random source whose fourth draw is 0.999. *)
Definition sample_random (k : nat) : Q :=
  match k with 3%nat => 999 # 1000 | _ => 1 # 2 end.

(** * Properties *)

Ltac split_all := repeat match goal with |- _ /\ _ => split end.

(** ** Reading properties *)

Lemma get_truthy v k : truthy v = true -> get v k = Normal (read v k).
Proof. unfold read. destruct v; simpl; try discriminate; reflexivity. Qed.

Lemma get_opt_normal v k : get_opt v k = Normal (read_opt v k).
Proof. unfold read_opt. destruct v; reflexivity. Qed.

Lemma get_not_nullish v k :
  v <> JUndefined -> v <> JNull -> get v k = Normal (read v k).
Proof. unfold read. destruct v; simpl; congruence. Qed.

Lemma get_nullish v k : v = JUndefined \/ v = JNull -> get v k = Abrupt TypeError.
Proof. intros [-> | ->]; reflexivity. Qed.

Lemma or_else_falsy a b : truthy a = false -> or_else a b = b.
Proof. unfold or_else. intros ->. reflexivity. Qed.

Lemma or_else_truthy a b : truthy a = true -> or_else a b = a.
Proof. unfold or_else. intros ->. reflexivity. Qed.

Lemma assoc_without {k k' : string} (props : list (string * JsValue)) :
  assoc k' (without k props) = if String.eqb k k' then None else assoc k' props.
Proof.
  induction props as [| [k0 v] rest IH]; simpl.
  - destruct (String.eqb k k'); reflexivity.
  - destruct (String.eqb_spec k k0) as [-> | Hk]; simpl.
    + rewrite IH. rewrite (String.eqb_sym k' k0).
      destruct (String.eqb k0 k'); reflexivity.
    + rewrite IH. destruct (String.eqb_spec k' k0) as [-> | Hk'].
      * apply String.eqb_neq in Hk. rewrite Hk. reflexivity.
      * reflexivity.
Qed.

(** ** The normaliser in closed form *)

Lemma parse_body_nullish sym iso response :
  response = JUndefined \/ response = JNull ->
  parse_body sym iso response = Abrupt TypeError.
Proof. intros [-> | ->]; reflexivity. Qed.

Lemma parse_body_closed sym iso response :
  response <> JUndefined -> response <> JNull ->
  parse_body sym iso response =
    Normal (if truthy (selected_shape response)
            then Some (normalised sym iso (read response "financials")
                         (selected_shape response))
            else None).
Proof.
  intros Hu Hn. unfold parse_body.
  rewrite (get_not_nullish response "knowledge_graph") by assumption.
  cbn [mbind completion_bind].
  assert (Hsel : (if truthy (read response "knowledge_graph")
                  then Normal (read response "knowledge_graph")
                  else get response "summary")
                 = Normal (selected_shape response)).
  { unfold selected_shape, or_else.
    destruct (truthy (read response "knowledge_graph")); [reflexivity |].
    apply get_not_nullish; assumption. }
  rewrite Hsel. clear Hsel. cbn [mbind completion_bind].
  rewrite (get_not_nullish response "financials") by assumption.
  cbn [mbind completion_bind].
  destruct (truthy (selected_shape response)) eqn:Hs; cbn [negb]; [| reflexivity].
  rewrite !(get_truthy _ _ Hs), !get_opt_normal. cbn [mbind completion_bind].
  unfold normalised, financial_or, or_else.
  repeat match goal with
         | |- context [if truthy ?x then Normal ?a else Normal ?b] =>
             replace (if truthy x then Normal a else Normal b)
               with (Normal (A := JsValue) (if truthy x then a else b))
               by (destruct (truthy x); reflexivity);
             cbn [mbind completion_bind]
         end.
  reflexivity.
Qed.

Lemma parse_closed sym iso response :
  response <> JUndefined -> response <> JNull ->
  parseGoogleFinanceResponse sym iso response =
    (if truthy (selected_shape response)
     then Some (normalised sym iso (read response "financials") (selected_shape response))
     else None, []).
Proof.
  intros Hu Hn. unfold parseGoogleFinanceResponse.
  rewrite parse_body_closed by assumption. reflexivity.
Qed.

Lemma parse_nullish sym iso response :
  response = JUndefined \/ response = JNull ->
  parseGoogleFinanceResponse sym iso response =
    (None, ["Error parsing response for " ++ sym ++ ":"]).
Proof.
  intros H. unfold parseGoogleFinanceResponse.
  rewrite parse_body_nullish by assumption. reflexivity.
Qed.

Lemma nullish_dec (v : JsValue) :
  {v = JUndefined \/ v = JNull} + {v <> JUndefined /\ v <> JNull}.
Proof. destruct v; (left; auto; fail) || (right; split; discriminate). Qed.

(** ** Claims about the normaliser *)

(** C1, the input that refutes it: the detailed shape is present but
    has no price, the summary shape has price 100. A per-field
    precedence would give 100; the normaliser gives 0. *)
Lemma summary_not_consulted_per_field :
  let response :=
    JObj [("knowledge_graph", JObj [("change", JNum 5)]);
          ("summary", JObj [("price", JNum 100)])] in
  exists d,
    parseGoogleFinanceResponse "X" "t" response = (Some d, [])
    /\ per_field response "price" = JNum 100
    /\ price d = JNum 0
    /\ price d <> per_field response "price".
Proof.
  cbv zeta. eexists. split; [reflexivity |].
  split; [reflexivity |]. split; [reflexivity |]. discriminate.
Qed.

(** C1 as amended: the shape is chosen once, for the whole response
    ([knowledge_graph] if it is truthy, else [summary]); price, change
    and changePercent are each read from that one shape and default to
    0 when the field is absent (or falsy) there. *)
Theorem normaliser_reads_selected_shape sym iso response d :
  fst (parseGoogleFinanceResponse sym iso response) = Some d ->
  truthy (selected_shape response) = true
  /\ price d = or_else (read (selected_shape response) "price") (JNum 0)
  /\ change d = or_else (read (selected_shape response) "change") (JNum 0)
  /\ changePercent d = or_else (read (selected_shape response) "change_percent") (JNum 0).
Proof.
  intros H. destruct (nullish_dec response) as [Hn | [Hu Hn]].
  - rewrite parse_nullish in H by assumption. discriminate.
  - rewrite parse_closed in H by assumption. cbn [fst] in H.
    destruct (truthy (selected_shape response)); [| discriminate].
    injection H as <-. repeat split; reflexivity.
Qed.

Lemma normaliser_reads_selected_shape_witness :
  let response :=
    JObj [("knowledge_graph", JObj [("change", JNum 5)]);
          ("summary", JObj [("price", JNum 100)])] in
  let d := normalised "X" "t" JUndefined (JObj [("change", JNum 5)]) in
  truthy (selected_shape response) = true
  /\ price d = or_else (read (selected_shape response) "price") (JNum 0)
  /\ change d = or_else (read (selected_shape response) "change") (JNum 0)
  /\ changePercent d = or_else (read (selected_shape response) "change_percent") (JNum 0).
Proof.
  cbv zeta. apply (normaliser_reads_selected_shape "X" "t"). reflexivity.
Defined.

(** C2: the normaliser returns null exactly when neither the detailed
    nor the summary shape is there (an object always counts as there);
    an exception raised in its body is caught and turned into null; and
    a shape with a price but no change gives a record with change 0. *)
Theorem normaliser_null_iff_no_shape sym iso response :
  (forall e, parse_body sym iso response = Abrupt e ->
             parseGoogleFinanceResponse sym iso response
             = (None, ["Error parsing response for " ++ sym ++ ":"]))
  /\ (fst (parseGoogleFinanceResponse sym iso response) = None
      <-> truthy (read response "knowledge_graph") = false
          /\ truthy (read response "summary") = false)
  /\ (forall props,
        read response "knowledge_graph" = JObj props
        \/ read response "summary" = JObj props ->
        fst (parseGoogleFinanceResponse sym iso response) <> None)
  /\ (forall p,
        truthy (selected_shape response) = true ->
        read (selected_shape response) "change" = JUndefined ->
        read (selected_shape response) "price" = p ->
        truthy p = true ->
        exists d, parseGoogleFinanceResponse sym iso response = (Some d, [])
                  /\ change d = JNum 0 /\ price d = p).
Proof.
  assert (Hiff : fst (parseGoogleFinanceResponse sym iso response) = None
                 <-> truthy (read response "knowledge_graph") = false
                     /\ truthy (read response "summary") = false).
  { destruct (nullish_dec response) as [Hn | [Hu Hn]].
    - rewrite parse_nullish by assumption. cbn [fst].
      destruct Hn as [-> | ->]; split; auto.
    - rewrite parse_closed by assumption. cbn [fst].
      unfold selected_shape, or_else.
      destruct (truthy (read response "knowledge_graph")) eqn:Hkg.
      + rewrite Hkg. split; [discriminate | intros [? _]; discriminate].
      + destruct (truthy (read response "summary")) eqn:Hsm.
        * split; [discriminate | intros [_ ?]; discriminate].
        * split; auto. }
  split; [| split; [exact Hiff | split]].
  - intros e He. unfold parseGoogleFinanceResponse. rewrite He. reflexivity.
  - intros props [H | H] Hnone; apply Hiff in Hnone as [H1 H2];
      rewrite H in *; discriminate.
  - intros p Hs Hc Hp Ht.
    destruct (nullish_dec response) as [Hn | [Hu Hn]].
    { destruct Hn as [-> | ->]; discriminate. }
    rewrite parse_closed by assumption. rewrite Hs.
    eexists. split; [reflexivity |]. cbn [change price normalised].
    rewrite Hc, Hp. split; [reflexivity |]. apply or_else_truthy. exact Ht.
Qed.

(** C10: a field that is there but falsy reads as if it were not.
    (1) A falsy [pe_ratio], [market_cap], [net_income] or [revenue] of
    the financials block (0 and the empty string are falsy) gives way
    to the selected shape's field. (2) A shape whose [price], [change]
    or [change_percent] is 0 normalises to the same result as the shape
    with that field left out. (3) An object under [knowledge_graph],
    even an empty one, keeps the summary from being read at all. *)
Theorem falsy_field_reads_as_absent :
  (forall sym iso response d,
      fst (parseGoogleFinanceResponse sym iso response) = Some d ->
      let fin := read response "financials" in
      let shape := selected_shape response in
      (truthy (read_opt fin "pe_ratio") = false -> peRatio d = read shape "pe_ratio")
      /\ (truthy (read_opt fin "market_cap") = false -> marketCap d = read shape "market_cap")
      /\ (truthy (read_opt fin "net_income") = false -> earnings d = read shape "earnings")
      /\ (truthy (read_opt fin "revenue") = false -> revenue d = read shape "revenue"))
  /\ (forall z, Qnum z = 0 -> truthy (JNum z) = false)
  /\ truthy (JStr "") = false
  /\ (forall sym iso shape_key k z props rest,
        shape_key = "knowledge_graph" \/ shape_key = "summary" ->
        k = "price" \/ k = "change" \/ k = "change_percent" ->
        Qnum z = 0 ->
        parseGoogleFinanceResponse sym iso
          (JObj ((shape_key, JObj ((k, JNum z) :: props)) :: rest))
        = parseGoogleFinanceResponse sym iso
            (JObj ((shape_key, JObj (without k props)) :: rest)))
  /\ (forall sym iso kg_props sm rest,
        parseGoogleFinanceResponse sym iso
          (JObj (("knowledge_graph", JObj kg_props) :: ("summary", sm) :: rest))
        = parseGoogleFinanceResponse sym iso
            (JObj (("knowledge_graph", JObj kg_props) :: rest)))
  /\ (forall sym iso sm rest,
        exists d,
          parseGoogleFinanceResponse sym iso
            (JObj (("knowledge_graph", JObj []) :: ("summary", sm) :: rest))
          = (Some d, [])
          /\ price d = JNum 0 /\ change d = JNum 0 /\ changePercent d = JNum 0).
Proof.
  split; [| split; [| split; [| split; [| split]]]].
  - intros sym iso response d H fin shape.
    destruct (nullish_dec response) as [Hn | [Hu Hn]].
    { rewrite parse_nullish in H by assumption. discriminate. }
    rewrite parse_closed in H by assumption. cbn [fst] in H.
    destruct (truthy (selected_shape response)); [| discriminate].
    injection H as <-. cbn [peRatio marketCap earnings revenue normalised].
    unfold financial_or. repeat split; intros Hf; apply or_else_falsy; exact Hf.
  - intros z Hz. simpl. rewrite Hz. reflexivity.
  - reflexivity.
  - intros sym iso shape_key k z props rest Hsk Hk Hz.
    rewrite !parse_closed by discriminate.
    assert (Hnorm : forall fin,
               normalised sym iso fin (JObj ((k, JNum z) :: props))
               = normalised sym iso fin (JObj (without k props))).
    { intros fin. unfold normalised, financial_or, read. cbn [get].
      assert (Hf : truthy (JNum z) = false) by (simpl; rewrite Hz; reflexivity).
      destruct Hk as [-> | [-> | ->]]; cbn [assoc String.eqb Ascii.eqb Bool.eqb];
        rewrite !assoc_without; cbn [String.eqb Ascii.eqb Bool.eqb default];
        rewrite (or_else_falsy (JNum z)) by exact Hf; reflexivity. }
    destruct Hsk as [-> | ->].
    + unfold selected_shape, read, or_else; cbn. rewrite Hnorm. reflexivity.
    + unfold selected_shape, read, or_else; cbn.
      destruct (truthy (default JUndefined (assoc "knowledge_graph" rest)));
        [reflexivity |]. cbn. rewrite Hnorm. reflexivity.
  - intros sym iso kg_props sm rest. rewrite !parse_closed by discriminate.
    reflexivity.
  - intros sym iso sm rest. rewrite parse_closed by discriminate.
    eexists. split; [reflexivity |]. repeat split; reflexivity.
Qed.

(** ** The client in closed form *)

Lemma truthy_not_nullish v : truthy v = true -> v <> JUndefined /\ v <> JNull.
Proof. destruct v; simpl; intros; try discriminate; split; discriminate. Qed.

Lemma console_error_nil w : console_error [] w = w.
Proof. destruct w. unfold console_error. simpl. rewrite app_nil_r. reflexivity. Qed.

Lemma fetch_settle_closed sym json now iso w :
  fetch_settle sym json now iso w =
    if truthy json then
      if truthy (selected_shape json) then
        (Normal (Some (normalised sym iso (read json "financials") (selected_shape json))),
         set_cache (<[sym := {| data := normalised sym iso (read json "financials")
                                          (selected_shape json);
                                timestamp := now |}]> (cache w)) w)
      else (Normal None, w)
    else (Normal None, console_error ["Error fetching data for " ++ sym ++ ":"] w).
Proof.
  unfold fetch_settle. destruct (truthy json) eqn:Hj; [| reflexivity].
  cbn [mbind completion_bind].
  destruct (truthy_not_nullish _ Hj) as [Hu Hn].
  rewrite parse_closed by assumption.
  destruct (truthy (selected_shape json)); cbn [try_catch];
    rewrite console_error_nil; reflexivity.
Qed.

Lemma fresh_some now ttl (c : option CacheEntry) d :
  fresh now ttl c = Some d <->
  exists e, c = Some e /\ data e = d /\ now - timestamp e < ttl.
Proof.
  unfold fresh. destruct c as [e |].
  - destruct (Z.ltb_spec (now - timestamp e) ttl); split.
    + intros [= <-]. eauto.
    + intros (e' & [= <-] & <- & _). reflexivity.
    + discriminate.
    + intros (e' & [= <-] & _ & ?). lia.
  - split; [discriminate | intros (e' & ? & _); discriminate].
Qed.

Lemma fresh_none now ttl (c : option CacheEntry) :
  fresh now ttl c = None <->
  c = None \/ exists e, c = Some e /\ ttl <= now - timestamp e.
Proof.
  unfold fresh. destruct c as [e |].
  - destruct (Z.ltb_spec (now - timestamp e) ttl); split.
    + discriminate.
    + intros [? | (e' & [= <-] & ?)]; [discriminate | lia].
    + intros _. right. eauto.
    + reflexivity.
  - split; auto.
Qed.

(** ** Claims about the cache *)

(** C3: with an entry for the symbol captured at time T, the strict
    read of [fetchStockData] returns the cached record, issuing no
    request and changing nothing, whenever now - T < 15000, and goes
    upstream whenever now - T >= 15000; [getCachedData] returns the
    record exactly when now - T < 30000 = 2 * 15000 and null otherwise. *)
Theorem cache_ttl_reads sym (w : World) (e : CacheEntry) :
  cache w !! sym = Some e ->
  (forall env, now_check env - timestamp e < 15000 ->
               fetchStockData env sym w = (Normal (Some (data e)), w))
  /\ (forall now, 15000 <= now - timestamp e ->
                  fetch_begin now sym w
                  = (Pending, issue {| engine := "google_finance"; q := mapSymbol sym;
                                       api_key := apiKey w |} w))
  /\ (forall now, now - timestamp e < 30000 -> getCachedData now sym w = Some (data e))
  /\ (forall now, 30000 <= now - timestamp e -> getCachedData now sym w = None)
  /\ CACHE_DURATION * 2 = 30000.
Proof.
  intros He. repeat split.
  - intros env Hnow. unfold fetchStockData, fetch_begin, fresh, CACHE_DURATION.
    rewrite He. destruct (Z.ltb_spec (now_check env - timestamp e) 15000); [reflexivity | lia].
  - intros now Hnow. unfold fetch_begin, fresh, CACHE_DURATION.
    rewrite He. destruct (Z.ltb_spec (now - timestamp e) 15000); [lia | reflexivity].
  - intros now Hnow. unfold getCachedData, fresh, CACHE_DURATION. rewrite He.
    destruct (Z.ltb_spec (now - timestamp e) (15000 * 2)); [reflexivity | lia].
  - intros now Hnow. unfold getCachedData, fresh, CACHE_DURATION. rewrite He.
    destruct (Z.ltb_spec (now - timestamp e) (15000 * 2)); [lia | reflexivity].
Qed.

Lemma cache_ttl_reads_witness :
  (forall env, now_check env - 1000 < 15000 ->
               fetchStockData env "HDFCBANK.NS" (sample_world 1000)
               = (Normal (Some (sample_quote "t0")), sample_world 1000))
  /\ (forall now, 15000 <= now - 1000 ->
                  fetch_begin now "HDFCBANK.NS" (sample_world 1000)
                  = (Pending, issue {| engine := "google_finance";
                                       q := mapSymbol "HDFCBANK.NS";
                                       api_key := "demo_key" |} (sample_world 1000)))
  /\ (forall now, now - 1000 < 30000 ->
                  getCachedData now "HDFCBANK.NS" (sample_world 1000)
                  = Some (sample_quote "t0"))
  /\ (forall now, 30000 <= now - 1000 ->
                  getCachedData now "HDFCBANK.NS" (sample_world 1000) = None)
  /\ CACHE_DURATION * 2 = 30000.
Proof.
  apply (cache_ttl_reads "HDFCBANK.NS" (sample_world 1000)
           {| data := sample_quote "t0"; timestamp := 1000 |}).
  reflexivity.
Defined.

(** C4, the input that refutes it: the entry was captured at time 0;
    a first call at 14999 succeeds from the cache; a second call 2
    time-units later finds the entry stale and goes upstream. *)
Lemma second_call_after_cache_hit_goes_upstream :
  let env1 := {| now_check := 14999; reply := sample_reply;
                 now_store := 14999; iso_stamp := "t1" |} in
  let env2 := {| now_check := 15001; reply := sample_reply;
                 now_store := 15002; iso_stamp := "t2" |} in
  exists d w1 w2,
    fetchStockData env1 "HDFCBANK.NS" (sample_world 0) = (Normal (Some d), w1)
    /\ now_check env2 - now_check env1 < 15000
    /\ fetchStockData env2 "HDFCBANK.NS" w1 = (Normal (Some (sample_quote "t2")), w2)
    /\ sample_quote "t2" <> d
    /\ requests w1 = []
    /\ requests w2 = [{| engine := "google_finance"; q := "HDFCBANK:NSE";
                         api_key := "demo_key" |}].
Proof.
  cbv zeta. exists (sample_quote "t0"), (sample_world 0). eexists.
  split; [reflexivity |]. split; [reflexivity |].
  split; [rewrite (surjective_pairing (fetchStockData _ _ _)); f_equal; reflexivity |].
  split; [discriminate |]. split; reflexivity.
Qed.

(** C4 as amended: when a call of [fetchStockData] finds no fresh
    entry, goes upstream and succeeds, storing the record at time T, a
    second call with now - T < 15000 issues no request, changes nothing
    and returns the same record: the two calls issue exactly one request. *)
Theorem fetch_twice_one_lookup env1 env2 sym (w w1 : World) d :
  fresh (now_check env1) CACHE_DURATION (cache w !! sym) = None ->
  fetchStockData env1 sym w = (Normal (Some d), w1) ->
  now_check env2 - now_store env1 < 15000 ->
  fetchStockData env2 sym w1 = (Normal (Some d), w1)
  /\ requests w1
     = (requests w ++ [{| engine := "google_finance"; q := mapSymbol sym;
                          api_key := apiKey w |}])%list.
Proof.
  intros Hmiss H1 Hnow. unfold fetchStockData, fetch_begin in H1.
  rewrite Hmiss in H1. rewrite fetch_settle_closed in H1.
  destruct (truthy (reply env1)); [| discriminate].
  destruct (truthy (selected_shape (reply env1))); [| discriminate].
  injection H1 as <- <-. split; [| reflexivity].
  unfold fetchStockData, fetch_begin, fresh, CACHE_DURATION. cbn [cache set_cache issue].
  rewrite lookup_insert_eq. cbn [timestamp data].
  destruct (Z.ltb_spec (now_check env2 - now_store env1) 15000); [reflexivity | lia].
Qed.

Lemma fetch_twice_one_lookup_witness :
  let env1 := {| now_check := 20000; reply := sample_reply;
                 now_store := 20200; iso_stamp := "t1" |} in
  let env2 := {| now_check := 35199; reply := JNull;
                 now_store := 35199; iso_stamp := "t2" |} in
  let w1 := snd (fetchStockData env1 "HDFCBANK.NS" (sample_world 0)) in
  fetchStockData env2 "HDFCBANK.NS" w1 = (Normal (Some (sample_quote "t1")), w1)
  /\ requests w1
     = ([] ++ [{| engine := "google_finance"; q := mapSymbol "HDFCBANK.NS";
                  api_key := "demo_key" |}])%list.
Proof.
  cbv zeta.
  apply (fetch_twice_one_lookup
           {| now_check := 20000; reply := sample_reply;
              now_store := 20200; iso_stamp := "t1" |}
           {| now_check := 35199; reply := JNull;
              now_store := 35199; iso_stamp := "t2" |}
           "HDFCBANK.NS" (sample_world 0)).
  - reflexivity.
  - apply injective_projections; reflexivity.
  - reflexivity.
Defined.

(** C9: what [fetchStockData] does to the cache. A cache hit changes
    nothing at all, so the entry keeps its captured-at time; a call that
    returns null leaves the whole cache as it was; a call that goes
    upstream and succeeds overwrites the entry of its own symbol with
    the new record and the time of the write; no call touches the entry
    of another symbol; it never rejects. [clearCache] empties the cache.
    ([getCachedData] cannot change the client: it returns a value only.) *)
Theorem cache_written_only_on_success env sym (w : World) :
  let r := fst (fetchStockData env sym w) in
  let w' := snd (fetchStockData env sym w) in
  (forall d, fresh (now_check env) CACHE_DURATION (cache w !! sym) = Some d ->
             r = Normal (Some d) /\ w' = w)
  /\ (r = Normal None -> cache w' = cache w)
  /\ (forall d, fresh (now_check env) CACHE_DURATION (cache w !! sym) = None ->
                r = Normal (Some d) ->
                cache w' = <[sym := {| data := d; timestamp := now_store env |}]> (cache w))
  /\ (forall s, s <> sym -> cache w' !! s = cache w !! s)
  /\ (forall e, r <> Abrupt e)
  /\ cache (clearCache w) = ∅
  /\ (forall now s, getCachedData now s (clearCache w) = None).
Proof.
  cbv zeta. unfold fetchStockData, fetch_begin.
  destruct (fresh (now_check env) CACHE_DURATION (cache w !! sym)) as [d0 |] eqn:Hf.
  - cbn [fst snd]. split_all; try discriminate; try reflexivity.
    intros d [= <-]. split; reflexivity.
  - rewrite fetch_settle_closed.
    destruct (truthy (reply env)); [destruct (truthy (selected_shape (reply env))) |];
      cbn [fst snd cache set_cache issue console_error]; split_all;
      try discriminate; try reflexivity;
      try (intros now s; unfold getCachedData, clearCache; cbn;
           rewrite lookup_empty; reflexivity).
    + intros d _ [= <-]. reflexivity.
    + intros s Hs. rewrite lookup_insert_ne by congruence. reflexivity.
Qed.

(** ** The batched fetcher, task by task *)

Local Open Scope list_scope.

Lemma fetch_settle_normal sym json now iso w :
  exists w1,
    fetch_settle sym json now iso w = (Normal (settle_value sym json iso), w1)
    /\ timers w1 = timers w /\ requests w1 = requests w /\ apiKey w1 = apiKey w.
Proof.
  rewrite fetch_settle_closed. unfold settle_value.
  destruct (truthy json); [destruct (truthy (selected_shape json)) |];
    eexists; (split; [reflexivity |]); repeat split.
Qed.

Lemma resume_task_spec env start t r :
  exists w1,
    resume_task env start t r
    = {| results := record_outcomes (results r) [(tsym t, task_value env t)];
         world := setTimeout 300 w1;
         failure := failure r;
         clock := Z.max (clock r)
                    (task_done_at env start t + 300
                     + Z.of_N (up_lag (upstream env (pos t))));
         batches := batches r;
         settled := settled r ++ [(tsym t, task_value env t)] |}
    /\ timers w1 = timers (world r) /\ requests w1 = requests (world r).
Proof.
  unfold resume_task, task_value, task_done_at. destruct (begun t) as [v |].
  - exists (world r). repeat split.
  - destruct (fetch_settle_normal (tsym t) (up_reply (upstream env (pos t)))
                (start + Z.of_N (up_latency (upstream env (pos t))))
                (up_iso (upstream env (pos t))) (world r))
      as (w1 & -> & Ht & Hr & _).
    exists w1. repeat split; assumption.
Qed.

Lemma record_outcomes_app m a b :
  record_outcomes m (a ++ b) = record_outcomes (record_outcomes m a) b.
Proof. unfold record_outcomes. apply foldl_app. Qed.

Lemma resume_all_spec env start ts : forall r,
  failure (resume_all env start ts r) = failure r
  /\ batches (resume_all env start ts r) = batches r
  /\ timers (world (resume_all env start ts r))
     = timers (world r) ++ replicate (List.length ts) 300
  /\ requests (world (resume_all env start ts r)) = requests (world r)
  /\ settled (resume_all env start ts r)
     = settled r ++ map (fun t => (tsym t, task_value env t)) ts
  /\ results (resume_all env start ts r)
     = record_outcomes (results r) (map (fun t => (tsym t, task_value env t)) ts)
  /\ clock r <= clock (resume_all env start ts r)
  /\ (ts <> [] -> start + 300 <= clock (resume_all env start ts r)).
Proof.
  induction ts as [| t ts IH]; intros r.
  - cbn. rewrite !app_nil_r. repeat split; try reflexivity; try lia. congruence.
  - unfold resume_all. cbn [foldl]. fold (resume_all env start ts (resume_task env start t r)).
    destruct (resume_task_spec env start t r) as (w1 & Hr & Ht & Hq).
    destruct (IH (resume_task env start t r)) as (F & B & T & Q & S & R & C & _).
    set (r1 := resume_task env start t r) in *.
    assert (F1 : failure r1 = failure r) by (subst r1; rewrite Hr; reflexivity).
    assert (B1 : batches r1 = batches r) by (subst r1; rewrite Hr; reflexivity).
    assert (T1 : timers (world r1) = timers (world r) ++ [300])
      by (subst r1; rewrite Hr; cbn; rewrite Ht; reflexivity).
    assert (Q1 : requests (world r1) = requests (world r))
      by (subst r1; rewrite Hr; cbn; rewrite Hq; reflexivity).
    assert (S1 : settled r1 = settled r ++ [(tsym t, task_value env t)])
      by (subst r1; rewrite Hr; reflexivity).
    assert (R1 : results r1 = record_outcomes (results r) [(tsym t, task_value env t)])
      by (subst r1; rewrite Hr; reflexivity).
    assert (C1 : clock r1 = Z.max (clock r)
                   (task_done_at env start t + 300
                    + Z.of_N (up_lag (upstream env (pos t)))))
      by (subst r1; rewrite Hr; reflexivity).
    rewrite F, B, T, Q, S, R, F1, B1, T1, Q1, S1, R1. cbn [List.length replicate map].
    split_all; try reflexivity.
    + rewrite <- app_assoc. reflexivity.
    + rewrite <- app_assoc. reflexivity.
    + lia.
    + intros _. unfold task_done_at in C1. destruct (begun t); lia.
Qed.

(** With prompt replies and timers every task of a batch is over 300
    ms after the batch was issued. *)
Lemma resume_all_prompt json start ts : forall r,
  clock (resume_all (prompt json) start ts r)
  = match ts with [] => clock r | _ => Z.max (clock r) (start + 300) end.
Proof.
  induction ts as [| t ts IH]; intros r; [reflexivity |].
  unfold resume_all. cbn [foldl]. fold (resume_all (prompt json) start ts (resume_task (prompt json) start t r)).
  rewrite IH. destruct (resume_task_spec (prompt json) start t r) as (w1 & -> & _).
  cbn [clock]. unfold task_done_at. cbn.
  destruct (begun t), ts; lia.
Qed.

Lemma begin_batch_spec now : forall batch p w,
  map tsym (fst (begin_batch now p batch w)) = batch
  /\ timers (snd (begin_batch now p batch w)) = timers w
  /\ console (snd (begin_batch now p batch w)) = console w
  /\ cache (snd (begin_batch now p batch w)) = cache w.
Proof.
  induction batch as [| s rest IH]; intros p w; [repeat split |].
  cbn [begin_batch]. destruct (fetch_begin now s w) as [b w1] eqn:Hb.
  destruct (begin_batch now (S p) rest w1) as [ts w2] eqn:Hrest.
  specialize (IH (S p) w1). rewrite Hrest in IH. cbn [fst snd] in *.
  destruct IH as (IH1 & IH2 & IH3 & IH4).
  assert (Hw : timers w1 = timers w /\ console w1 = console w /\ cache w1 = cache w).
  { unfold fetch_begin in Hb.
    destruct (fresh now CACHE_DURATION (cache w !! s)); injection Hb as <- <-; repeat split. }
  destruct Hw as (H1 & H2 & H3). cbn [map tsym].
  rewrite IH1, IH2, IH3, IH4, H1, H2, H3. repeat split.
Qed.

Lemma insert_by_latency_perm env t l : insert_by_latency env t l ≡ₚ t :: l.
Proof.
  induction l as [| u rest IH]; [reflexivity |]. cbn [insert_by_latency].
  destruct (_ <=? _)%N; [reflexivity |].
  rewrite IH. apply Permutation_swap.
Qed.

Lemma sort_by_latency_perm env l : sort_by_latency env l ≡ₚ l.
Proof.
  induction l as [| t rest IH]; [reflexivity |]. cbn [sort_by_latency].
  rewrite insert_by_latency_perm, IH. reflexivity.
Qed.

Lemma resume_order_perm env tasks : resume_order env tasks ≡ₚ tasks.
Proof.
  unfold resume_order. rewrite sort_by_latency_perm.
  induction tasks as [| t rest IH]; [reflexivity |].
  rewrite !filter_cons. destruct (is_hit t) eqn:Ht.
  - rewrite decide_True by reflexivity. rewrite decide_False by discriminate.
    cbn. rewrite IH. reflexivity.
  - rewrite decide_False by discriminate. rewrite decide_True by reflexivity.
    rewrite <- Permutation_middle. rewrite IH. reflexivity.
Qed.

(** ** Batches *)

Lemma list_ind3 (P : list string -> Prop) :
  P [] -> (forall a, P [a]) -> (forall a b, P [a; b]) ->
  (forall a b c rest, P rest -> P (a :: b :: c :: rest)) ->
  forall l, P l.
Proof.
  intros H0 H1 H2 H3. fix IH 1. intros l.
  destruct l as [| a [| b [| c rest]]];
    [exact H0 | exact (H1 a) | exact (H2 a b) | exact (H3 a b c rest (IH rest))].
Qed.

Lemma chunks_cons l : l <> [] -> chunks l = take 3 l :: chunks (drop 3 l).
Proof. destruct l as [| a [| b [| c rest]]]; intros H; try reflexivity. congruence. Qed.

Lemma chunks_nil l : chunks l = [] <-> l = [].
Proof. destruct l as [| a [| b [| c rest]]]; split; intros H; try discriminate; reflexivity. Qed.

Lemma chunks_concat l : concat (chunks l) = l.
Proof. induction l using list_ind3; cbn; try reflexivity. rewrite IHl. reflexivity. Qed.

Lemma chunks_length l : List.length (chunks l) = ((List.length l + 2) / 3)%nat.
Proof.
  induction l using list_ind3; try reflexivity.
  cbn [chunks List.length]. rewrite IHl.
  replace (S (S (S (List.length l))) + 2)%nat with (1 * 3 + (List.length l + 2))%nat by lia.
  rewrite Nat.div_add_l by lia. lia.
Qed.

Lemma chunks_sizes l : Forall (fun b => (1 <= List.length b <= 3)%nat) (chunks l).
Proof.
  induction l using list_ind3; cbn [chunks];
    repeat constructor; cbn; try lia. exact IHl.
Qed.

(** Every batch but the last is full. *)
Lemma chunks_full l k b :
  chunks l !! k = Some b -> (S k < List.length (chunks l))%nat -> List.length b = 3%nat.
Proof.
  revert k. induction l using list_ind3; intros k Hk Hlt.
  1-3: cbn in Hlt; lia.
  change (chunks (a :: b0 :: c :: l)) with ([a; b0; c] :: chunks l) in *.
  destruct k as [| k]; [injection Hk as <-; reflexivity |].
  apply (IHl k); [exact Hk | cbn in Hlt; lia].
Qed.

Lemma sumZ_app a b : sumZ (a ++ b) = sumZ a + sumZ b.
Proof. unfold sumZ. induction a as [| x a IH]; cbn; [reflexivity | rewrite IH; lia]. Qed.

Lemma sumZ_replicate n x : sumZ (replicate n x) = Z.of_nat n * x.
Proof. unfold sumZ. induction n as [| n IH]; cbn [replicate foldr]; [reflexivity | rewrite IH; lia]. Qed.

Lemma pacing_cons b rest :
  pacing (b :: rest)
  = replicate (List.length b) 300 ++ (if rest is [] then [] else 1000 :: pacing rest).
Proof. destruct rest; cbn [pacing]; [rewrite app_nil_r |]; reflexivity. Qed.

(** The delays requested add up to 300 per symbol and 1000 per gap. *)
Lemma pacing_total l :
  l <> [] ->
  sumZ (pacing (chunks l))
  = 300 * Z.of_nat (List.length l) + 1000 * (Z.of_nat (List.length (chunks l)) - 1).
Proof.
  induction l using list_ind3; intros Hne; try congruence; try reflexivity.
  change (chunks (a :: b :: c :: l)) with ([a; b; c] :: chunks l).
  rewrite pacing_cons, sumZ_app, sumZ_replicate.
  destruct (chunks l) as [| b0 bs] eqn:Hc.
  - apply chunks_nil in Hc. subst l. reflexivity.
  - assert (Hl : l <> []) by (intros ->; discriminate).
    specialize (IHl Hl). change (sumZ (1000 :: pacing (b0 :: bs)))
      with (1000 + sumZ (pacing (b0 :: bs))).
    rewrite IHl. cbn [List.length]. lia.
Qed.

Lemma slice_take_drop (symbols : list string) i :
  slice i (i + batchSize) symbols = take 3 (drop i symbols).
Proof. unfold slice, batchSize. replace (i + 3 - i)%nat with 3%nat by lia. reflexivity. Qed.

Lemma drop_nonempty (symbols : list string) i :
  (i < List.length symbols)%nat <-> drop i symbols <> [].
Proof.
  split.
  - intros Hlt Hnil. apply (f_equal List.length) in Hnil.
    rewrite length_drop in Hnil. cbn in Hnil. lia.
  - intros Hne. destruct (Nat.lt_ge_cases i (List.length symbols)) as [? | Hge]; [assumption |].
    exfalso. apply Hne. apply drop_ge. exact Hge.
Qed.

(** One iteration of the loop. *)
Lemma run_batch_spec env i symbols r :
  let batch := take 3 (drop i symbols) in
  let r' := run_batch env i symbols r in
  failure r' = failure r
  /\ batches r' = batches r ++ [batch]
  /\ timers (world r') = timers (world r) ++ replicate (List.length batch) 300
  /\ (exists outs, settled r' = settled r ++ outs
                   /\ map fst outs ≡ₚ batch
                   /\ results r' = record_outcomes (results r) outs)
  /\ clock r <= clock r'
  /\ (batch <> [] -> clock r + 300 <= clock r').
Proof.
  cbv zeta. unfold run_batch. rewrite slice_take_drop.
  set (batch := take 3 (drop i symbols)).
  pose proof (begin_batch_spec (clock r) batch i (world r)) as (Hsym & Htim & _).
  destruct (begin_batch (clock r) i batch (world r)) as [tasks w1]. cbn [fst snd] in *.
  set (r1 := {| results := results r; world := w1; failure := failure r;
                clock := clock r; batches := batches r ++ [batch];
                settled := settled r |}).
  fold (resume_all env (clock r) (resume_order env tasks) r1).
  destruct (resume_all_spec env (clock r) (resume_order env tasks) r1)
    as (F & B & T & _ & S & R & C & C').
  pose proof (resume_order_perm env tasks) as Hperm.
  rewrite F, B, T, S, R. cbn [failure batches world timers settled results clock r1] in *.
  split_all; try reflexivity.
  - rewrite Htim. rewrite (Permutation_length Hperm).
    rewrite <- Hsym, length_map. reflexivity.
  - eexists. split; [reflexivity |]. split; [| reflexivity].
    rewrite map_map. cbn [fst]. rewrite <- Hsym. apply Permutation_map. exact Hperm.
  - exact C.
  - intros Hne. apply C'. intros Hnil. rewrite Hnil in Hperm.
    apply Permutation_nil_l in Hperm. subst tasks. cbn in Hsym. congruence.
Qed.

Lemma run_batch_prompt json i symbols r :
  drop i symbols <> [] ->
  clock (run_batch (prompt json) i symbols r) = clock r + 300.
Proof.
  intros Hne. unfold run_batch. rewrite slice_take_drop.
  pose proof (begin_batch_spec (clock r) (take 3 (drop i symbols)) i (world r)) as (Hsym & _).
  destruct (begin_batch (clock r) i (take 3 (drop i symbols)) (world r)) as [tasks w1].
  cbn [fst] in Hsym.
  match goal with |- clock (foldl _ ?r1 ?ts) = _ =>
    change (clock (resume_all (prompt json) (clock r) ts r1) = clock r + 300) end.
  rewrite resume_all_prompt. cbn [clock].
  pose proof (resume_order_perm (prompt json) tasks) as Hperm.
  destruct (resume_order (prompt json) tasks) as [| t ts]; [| lia].
  apply Permutation_nil_l in Hperm. subst tasks. cbn in Hsym.
  destruct (drop i symbols); [congruence | discriminate].
Qed.

(** ** The loop *)

Lemma batch_gap_spec env i symbols r :
  let more := negb (bool_decide (chunks (drop (i + 3) symbols) = [])) in
  failure (batch_gap env i symbols r) = failure r
  /\ batches (batch_gap env i symbols r) = batches r
  /\ settled (batch_gap env i symbols r) = settled r
  /\ results (batch_gap env i symbols r) = results r
  /\ timers (world (batch_gap env i symbols r))
     = timers (world r) ++ (if more then [1000] else [])
  /\ clock (batch_gap env i symbols r)
     = clock r + (if more then 1000 + Z.of_N (gap_lag env i) else 0).
Proof.
  cbv zeta. unfold batch_gap, batchSize.
  destruct (Nat.ltb_spec (i + 3) (List.length symbols)) as [Hlt | Hge].
  - apply drop_nonempty in Hlt.
    rewrite bool_decide_eq_false_2 by (rewrite chunks_nil; exact Hlt).
    cbn [negb]. split_all; try reflexivity. cbn [clock]. lia.
  - rewrite bool_decide_eq_true_2 by (rewrite chunks_nil; apply drop_ge; exact Hge).
    cbn [negb]. rewrite app_nil_r, Z.add_0_r. split_all; reflexivity.
Qed.

Lemma batch_loop_spec env symbols : forall fuel i r,
  (List.length symbols - i + 3 <= 3 * fuel)%nat ->
  failure r = None ->
  exists r',
    batch_loop fuel env symbols i r = Some r'
    /\ failure r' = None
    /\ batches r' = batches r ++ chunks (drop i symbols)
    /\ timers (world r') = timers (world r) ++ pacing (chunks (drop i symbols))
    /\ (exists outs, settled r' = settled r ++ outs
                     /\ map fst outs ≡ₚ drop i symbols
                     /\ results r' = record_outcomes (results r) outs)
    /\ clock r + min_elapsed (List.length (chunks (drop i symbols))) <= clock r'.
Proof.
  induction fuel as [| fuel IH]; intros i r Hfuel Hok; [lia |].
  cbn [batch_loop]. destruct (Nat.ltb_spec i (List.length symbols)) as [Hlt | Hge].
  - pose proof (run_batch_spec env i symbols r) as (F & B & T & (outs & S & P & R) & C & C').
    apply drop_nonempty in Hlt as Hne.
    assert (Hb : take 3 (drop i symbols) <> []).
    { destruct (drop i symbols); [congruence | discriminate]. }
    specialize (C' Hb).
    rewrite F, Hok.
    pose proof (batch_gap_spec env i symbols (run_batch env i symbols r))
      as (F2 & B2 & S2 & R2 & T2 & C2).
    destruct (IH (i + batchSize)%nat (batch_gap env i symbols (run_batch env i symbols r)))
      as (r' & Hrun & F' & B' & T' & (outs' & S' & P' & R') & C3).
    { unfold batchSize. lia. }
    { rewrite F2, F. exact Hok. }
    exists r'. unfold batchSize in *.
    rewrite (chunks_cons (drop i symbols) Hne), drop_drop, pacing_cons.
    split; [exact Hrun |]. split; [exact F' |].
    rewrite B', T', S', R', B2, T2, S2, R2, B, T, S, R.
    split_all.
    + rewrite <- app_assoc. reflexivity.
    + rewrite <- !app_assoc. f_equal. f_equal.
      destruct (chunks (drop (i + 3) symbols)); reflexivity.
    + exists (outs ++ outs'). split; [rewrite app_assoc; reflexivity |].
      split; [| rewrite record_outcomes_app; reflexivity].
      rewrite map_app, P, P'. rewrite <- (drop_drop symbols 3 i).
      rewrite take_drop. reflexivity.
    + rewrite C2 in C3. cbn [List.length min_elapsed].
      destruct (chunks (drop (i + 3) symbols)) as [| b bs]; cbn in C3 |- *; lia.
  - rewrite (drop_ge symbols i Hge). cbn. rewrite !app_nil_r.
    exists r. split_all; try reflexivity; try assumption; try lia.
    exists []. rewrite app_nil_r. split_all; reflexivity.
Qed.

Lemma batch_loop_prompt json symbols : forall fuel i r r',
  failure r = None ->
  batch_loop fuel (prompt json) symbols i r = Some r' ->
  clock r' = clock r + min_elapsed (List.length (chunks (drop i symbols))).
Proof.
  induction fuel as [| fuel IH]; intros i r r' Hok Hrun; [discriminate |].
  cbn [batch_loop] in Hrun.
  destruct (Nat.ltb_spec i (List.length symbols)) as [Hlt | Hge].
  - pose proof (run_batch_spec (prompt json) i symbols r) as (F & _).
    rewrite F, Hok in Hrun. apply drop_nonempty in Hlt as Hne.
    pose proof (batch_gap_spec (prompt json) i symbols (run_batch (prompt json) i symbols r))
      as (F2 & _ & _ & _ & _ & C2).
    apply IH in Hrun; [| rewrite F2, F; exact Hok].
    rewrite Hrun, C2, (run_batch_prompt json i symbols r Hne).
    rewrite (chunks_cons (drop i symbols) Hne), drop_drop. unfold batchSize.
    cbn [List.length min_elapsed].
    destruct (chunks (drop (i + 3) symbols)) as [| b bs]; cbn; lia.
  - injection Hrun as <-. rewrite (drop_ge symbols i Hge). cbn. lia.
Qed.


Lemma min_elapsed_pos n :
  (0 < n)%nat -> min_elapsed n = 300 * Z.of_nat n + 1000 * (Z.of_nat n - 1).
Proof. destruct n; [lia |]. intros _. unfold min_elapsed. lia. Qed.

Lemma fetchMultipleStocks_runs env now symbols w :
  exists r,
    fetchMultipleStocks env now symbols w = Some r
    /\ failure r = None
    /\ batches r = chunks symbols
    /\ timers (world r) = timers w ++ pacing (chunks symbols)
    /\ map fst (settled r) ≡ₚ symbols
    /\ results r = record_outcomes ∅ (settled r)
    /\ now + min_elapsed (List.length (chunks symbols)) <= clock r.
Proof.
  unfold fetchMultipleStocks.
  edestruct (batch_loop_spec env symbols (S (List.length symbols)) 0)
    as (r & Hrun & F & B & T & (outs & S & P & R) & C);
    [| | exists r; split; [exact Hrun |]].
  - lia.
  - reflexivity.
  - cbn [batches world settled results clock] in *. rewrite drop_0 in *.
    cbn [app] in *. subst outs. split_all; assumption.
Qed.

(** ** Where the records of a run come from *)

Lemma fetch_settle_world sym json now iso w :
  let w1 := snd (fetch_settle sym json now iso w) in
  apiKey w1 = apiKey w /\ requests w1 = requests w /\ timers w1 = timers w
  /\ (cache_consistent w -> cache_consistent w1).
Proof.
  cbv zeta. rewrite fetch_settle_closed.
  destruct (truthy json); [destruct (truthy (selected_shape json)) |];
    cbn [snd apiKey requests timers set_cache console_error]; split_all; auto.
  intros Hc s e. cbn [cache set_cache].
  destruct (decide (sym = s)) as [<- | Hne].
  - rewrite lookup_insert_eq. intros [= <-]. reflexivity.
  - rewrite lookup_insert_ne by exact Hne. apply Hc.
Qed.

Lemma resume_task_world env start t r :
  world (resume_task env start t r)
  = setTimeout 300
      (match begun t with
       | Hit _ => world r
       | Pending => snd (fetch_settle (tsym t) (up_reply (upstream env (pos t)))
                           (start + Z.of_N (up_latency (upstream env (pos t))))
                           (up_iso (upstream env (pos t))) (world r))
       end).
Proof.
  unfold resume_task. destruct (begun t); [reflexivity |].
  destruct (fetch_settle_normal (tsym t) (up_reply (upstream env (pos t)))
              (start + Z.of_N (up_latency (upstream env (pos t))))
              (up_iso (upstream env (pos t))) (world r)) as (w1 & -> & _).
  reflexivity.
Qed.

(** What the synchronous start of a batch finds and sends. *)
Lemma begin_batch_tasks now : forall batch p (w : World),
  let ts := fst (begin_batch now p batch w) in
  let w2 := snd (begin_batch now p batch w) in
  Forall (fun t => match begun t with
                   | Hit d => fresh now CACHE_DURATION (cache w !! tsym t) = Some d
                   | Pending => fresh now CACHE_DURATION (cache w !! tsym t) = None
                   end) ts
  /\ requests w2
     = requests w ++ map (request_for w) (filter (fun s => stale now w s = true) batch)
  /\ apiKey w2 = apiKey w.
Proof.
  induction batch as [| s rest IH]; intros p w.
  - cbn. rewrite app_nil_r. split_all; [constructor | reflexivity | reflexivity].
  - cbv zeta. cbn [begin_batch].
    destruct (fresh now CACHE_DURATION (cache w !! s)) as [d |] eqn:Hf.
    + assert (Hb : fetch_begin now s w = (Hit d, w))
        by (unfold fetch_begin; rewrite Hf; reflexivity).
      assert (Hst : stale now w s = false) by (unfold stale; rewrite Hf; reflexivity).
      rewrite Hb, filter_cons, decide_False by (rewrite Hst; discriminate).
      specialize (IH (S p) w). cbv zeta in IH.
      destruct (begin_batch now (S p) rest w) as [ts w2]. cbn [fst snd] in *.
      destruct IH as (I1 & I2 & I3).
      split_all; [constructor; [exact Hf | exact I1] | exact I2 | exact I3].
    + assert (Hb : fetch_begin now s w = (Pending, issue (request_for w s) w))
        by (unfold fetch_begin; rewrite Hf; reflexivity).
      assert (Hst : stale now w s = true) by (unfold stale; rewrite Hf; reflexivity).
      rewrite Hb, filter_cons, decide_True by exact Hst.
      specialize (IH (S p) (issue (request_for w s) w)). cbv zeta in IH.
      destruct (begin_batch now (S p) rest (issue (request_for w s) w)) as [ts w2].
      cbn [fst snd] in *. destruct IH as (I1 & I2 & I3).
      split_all.
      * constructor; [exact Hf | exact I1].
      * rewrite I2. cbn [requests issue map]. rewrite <- app_assoc. reflexivity.
      * exact I3.
Qed.

Lemma batch_gap_world env i symbols r :
  requests (world (batch_gap env i symbols r)) = requests (world r)
  /\ apiKey (world (batch_gap env i symbols r)) = apiKey (world r)
  /\ cache (world (batch_gap env i symbols r)) = cache (world r).
Proof. unfold batch_gap. destruct (_ <? _)%nat; split_all; reflexivity. Qed.

(** Induction over the iterations of the loop. *)
Lemma batch_loop_invariant env symbols (P : Run -> Prop) :
  (forall i r, (i < List.length symbols)%nat -> failure r = None -> P r ->
               P (batch_gap env i symbols (run_batch env i symbols r))) ->
  forall fuel i r r',
    failure r = None -> P r ->
    batch_loop fuel env symbols i r = Some r' -> P r'.
Proof.
  intros Hstep. induction fuel as [| fuel IH]; intros i r r' Hok HP Hrun; [discriminate |].
  cbn [batch_loop] in Hrun.
  destruct (Nat.ltb_spec i (List.length symbols)) as [Hlt | Hge].
  - pose proof (run_batch_spec env i symbols r) as (F & _).
    rewrite F, Hok in Hrun.
    pose proof (batch_gap_spec env i symbols (run_batch env i symbols r)) as (F2 & _).
    eapply IH; [| | exact Hrun].
    + rewrite F2, F. exact Hok.
    + apply Hstep; assumption.
  - injection Hrun as <-. exact HP.
Qed.

Lemma record_outcomes_lookup s d : forall outs m,
  record_outcomes m outs !! s = Some d ->
  m !! s = Some d \/ (s, Some d) ∈ outs.
Proof.
  induction outs as [| [s' o] outs IH]; intros m H; [left; exact H |].
  change (record_outcomes m ((s', o) :: outs))
    with (record_outcomes (match o with Some v => <[s' := v]> m | None => m end) outs) in H.
  apply IH in H as [H | H]; [| right; right; exact H].
  destruct o as [v |]; [| left; exact H].
  destruct (decide (s' = s)) as [-> | Hne].
  - rewrite lookup_insert_eq in H. injection H as ->. right. left.
  - rewrite lookup_insert_ne in H by exact Hne. left. exact H.
Qed.

Lemma fetch_settle_cache sym json now iso w :
  cache (snd (fetch_settle sym json now iso w))
  = match settle_value sym json iso with
    | Some d => <[sym := {| data := d; timestamp := now |}]> (cache w)
    | None => cache w
    end.
Proof.
  rewrite fetch_settle_closed. unfold settle_value.
  destruct (truthy json); [destruct (truthy (selected_shape json)) |]; reflexivity.
Qed.










(** ** Claims about the batched fetcher *)


(** C6, the input that refutes it: three symbols whose replies each
    take 120 ms. The three 300 ms delays of the batch run side by side,
    so the call is over after 420 ms, less than 3 * 300 + 0 * 1000. *)
Lemma one_batch_of_three_takes_420 :
  let symbols := ["HDFCBANK.NS"; "INFY.NS"; "LTIM.NS"] in
  exists r,
    fetchMultipleStocks sample_env 0 symbols (newClient "demo_key") = Some r
    /\ clock r - 0 = 420
    /\ timers (world r) = [300; 300; 300]
    /\ ~ (Z.of_nat (List.length symbols) * 300
          + (Z.of_nat ((List.length symbols + 2) / 3) - 1) * 1000 <= clock r - 0).
Proof.
  cbv zeta. eexists. split; [reflexivity |].
  split; [reflexivity |]. split; [reflexivity |].
  intros H. vm_compute in H. apply H. reflexivity.
Qed.

(** C6 as amended: the symbols are cut, in input order, into
    ceil(N/3) batches of at most 3 (all but the last of exactly 3); a
    300 ms delay is requested after each fetch and a 1000 ms delay after
    every batch but the last, which add up to N * 300 +
    (ceil(N/3) - 1) * 1000 for N > 0; the delays of one batch run side
    by side, so the time elapsed is at least ceil(N/3) * 300 +
    (ceil(N/3) - 1) * 1000, and it is exactly that when replies are
    immediate and timers fire on time. *)
Theorem fetchMultipleStocks_pacing env now symbols (w : World) :
  exists r,
    fetchMultipleStocks env now symbols w = Some r
    /\ batches r = chunks symbols
    /\ concat (batches r) = symbols
    /\ List.length (batches r) = ((List.length symbols + 2) / 3)%nat
    /\ Forall (fun b => (1 <= List.length b <= 3)%nat) (batches r)
    /\ (forall k b, batches r !! k = Some b ->
                    (S k < List.length (batches r))%nat -> List.length b = 3%nat)
    /\ timers (world r) = timers w ++ pacing (batches r)
    /\ (symbols <> [] ->
        sumZ (pacing (batches r))
        = 300 * Z.of_nat (List.length symbols)
          + 1000 * (Z.of_nat ((List.length symbols + 2) / 3) - 1))
    /\ (symbols <> [] ->
        300 * Z.of_nat ((List.length symbols + 2) / 3)
        + 1000 * (Z.of_nat ((List.length symbols + 2) / 3) - 1) <= clock r - now)
    /\ (forall json, env = prompt json ->
                     clock r - now = min_elapsed ((List.length symbols + 2) / 3)).
Proof.
  destruct (fetchMultipleStocks_runs env now symbols w)
    as (r & Hrun & F & B & T & _ & _ & C).
  exists r. rewrite B, <- chunks_length. split_all; try assumption; try reflexivity.
  - apply chunks_concat.
  - apply chunks_sizes.
  - apply chunks_full.
  - intros Hne. apply pacing_total. exact Hne.
  - intros Hne. rewrite <- min_elapsed_pos; [lia |].
    destruct (chunks symbols) eqn:Hc; [apply chunks_nil in Hc; congruence | cbn; lia].
  - intros json ->. unfold fetchMultipleStocks in Hrun.
    apply batch_loop_prompt in Hrun; [| reflexivity].
    rewrite drop_0 in Hrun. cbn [clock] in Hrun. lia.
Qed.

(** ** Rounding on exact numbers *)

Local Open Scope Q_scope.

Lemma Qfloor_unique (x : Q) (z : Z) :
  inject_Z z <= x -> x < inject_Z (z + 1) -> Qfloor x = z.
Proof.
  intros Hlo Hhi.
  pose proof (Qfloor_le x) as H1. pose proof (Qlt_floor x) as H2.
  assert (Ha : (z < Qfloor x + 1)%Z).
  { rewrite Zlt_Qlt. eapply Qle_lt_trans; [exact Hlo | exact H2]. }
  assert (Hb : (Qfloor x < z + 1)%Z).
  { rewrite Zlt_Qlt. eapply Qle_lt_trans; [exact H1 | exact Hhi]. }
  lia.
Qed.



Lemma Math_round_Z (z : Z) : Math_round (inject_Z z) = inject_Z z.
Proof.
  unfold Math_round. f_equal. apply Qfloor_unique.
  - lra.
  - rewrite inject_Z_plus. change (inject_Z 1) with 1. lra.
Qed.

Lemma Math_round_mono x y : x <= y -> Math_round x <= Math_round y.
Proof.
  intros H. unfold Math_round. rewrite <- Zle_Qle. apply Qfloor_resp_le. lra.
Qed.

Lemma Math_round_between x (lo hi : Z) :
  inject_Z lo <= x -> x <= inject_Z hi ->
  inject_Z lo <= Math_round x /\ Math_round x <= inject_Z hi.
Proof.
  intros Hlo Hhi. split.
  - rewrite <- (Math_round_Z lo). apply Math_round_mono. exact Hlo.
  - rewrite <- (Math_round_Z hi). apply Math_round_mono. exact Hhi.
Qed.



Lemma Math_max_ge a b : a <= Math_max a b /\ b <= Math_max a b.
Proof.
  unfold Math_max. destruct (Qle_bool a b) eqn:E.
  - apply Qle_bool_iff in E. lra.
  - assert (~ a <= b) by (rewrite <- Qle_bool_iff, E; discriminate). lra.
Qed.

(** ** Base prices *)






Lemma stockDataBasePrices_whole :
  Forall (fun kv => whole_price (snd kv)) stockDataBasePrices.
Proof.
  unfold stockDataBasePrices.
  repeat (constructor; [eexists; split; [reflexivity | cbn; lia] |]). constructor.
Qed.

(** ** Claims about the fallback synthesiser *)

Lemma fallback_pe random iso sym :
  peRatio (getFallbackStockData random iso sym)
  = JNum (round1 (if is_tech sym then 20 + random 3%nat * 15
                  else if is_financial sym then 10 + random 3%nat * 15
                  else 15 + random 2%nat * 25)).
Proof.
  unfold getFallbackStockData, is_tech, is_financial, round1.
  destruct (lookup_or basePrices sym 1000) as [p |];
    [destruct (quote_numbers _ _ _) as [[? ?] ?] |];
    (destruct (includes sym "TECH" || includes sym "INFY" || includes sym "LTIM");
     [| destruct (includes sym "BANK" || includes sym "FINANCE")]); reflexivity.
Qed.










Lemma round1_between x (lo hi : Z) :
  inject_Z lo <= x -> x <= inject_Z hi ->
  inject_Z lo <= round1 x /\ round1 x <= inject_Z hi.
Proof.
  intros Hlo Hhi. unfold round1.
  destruct (Math_round_between (x * 10) (lo * 10) (hi * 10)) as [H1 H2].
  - rewrite inject_Z_mult. change (inject_Z 10) with 10. lra.
  - rewrite inject_Z_mult. change (inject_Z 10) with 10. lra.
  - rewrite inject_Z_mult in H1, H2. change (inject_Z 10) with 10 in H1, H2. split.
    + apply Qle_shift_div_l; [reflexivity | exact H1].
    + apply Qle_shift_div_r; [reflexivity | exact H2].
Qed.

(** C8, the input that refutes it: for INFY.NS and a sector draw of
    0.999 the ratio is 20 + 0.999 * 15 = 34.985, which rounds to 35.0,
    outside [20, 35). *)
Lemma fallback_pe_rounds_up_to_35 :
  (forall k, 0 <= sample_random k /\ sample_random k < 1)
  /\ includes "INFY.NS" "INFY" = true
  /\ num (peRatio (getFallbackStockData sample_random "t" "INFY.NS")) == 35
  /\ ~ num (peRatio (getFallbackStockData sample_random "t" "INFY.NS")) < 35.
Proof.
  split; [| split; [| split]].
  - intros k. destruct k as [| [| [| [| k]]]]; cbn; split; lra.
  - reflexivity.
  - reflexivity.
  - intros H. vm_compute in H. discriminate.
Qed.

(** C8 as amended: the ratio is drawn from [20, 35) when the symbol
    contains TECH, INFY or LTIM, otherwise from [10, 25) when it
    contains BANK or FINANCE, otherwise from [15, 40); the returned
    peRatio is the draw rounded to one decimal, so it lies in the closed
    interval [20, 35], [10, 25] or [15, 40]: the upper end is reached. *)
Theorem fallback_pe_ranges random iso sym :
  (forall k, 0 <= random k /\ random k < 1) ->
  let d := getFallbackStockData random iso sym in
  exists draw,
    peRatio d = JNum (round1 draw)
    /\ (is_tech sym = true ->
        (20 <= draw /\ draw < 35) /\ 20 <= num (peRatio d) /\ num (peRatio d) <= 35)
    /\ (is_tech sym = false -> is_financial sym = true ->
        (10 <= draw /\ draw < 25) /\ 10 <= num (peRatio d) /\ num (peRatio d) <= 25)
    /\ (is_tech sym = false -> is_financial sym = false ->
        (15 <= draw /\ draw < 40) /\ 15 <= num (peRatio d) /\ num (peRatio d) <= 40).
Proof.
  intros Hrand. cbv zeta.
  rewrite (fallback_pe random iso sym). cbn [num].
  destruct (Hrand 2%nat) as [H2 H2']. destruct (Hrand 3%nat) as [H3 H3'].
  destruct (is_tech sym); [| destruct (is_financial sym)];
    eexists; (split; [reflexivity |]).
  - destruct (round1_between (20 + random 3%nat * 15) 20 35) as [A B];
      [change (inject_Z 20) with 20; lra | change (inject_Z 35) with 35; lra |].
    change (inject_Z 20) with 20 in A. change (inject_Z 35) with 35 in B.
    split_all; intros; try discriminate; try assumption; lra.
  - destruct (round1_between (10 + random 3%nat * 15) 10 25) as [A B];
      [change (inject_Z 10) with 10; lra | change (inject_Z 25) with 25; lra |].
    change (inject_Z 10) with 10 in A. change (inject_Z 25) with 25 in B.
    split_all; intros; try discriminate; try assumption; lra.
  - destruct (round1_between (15 + random 2%nat * 25) 15 40) as [A B];
      [change (inject_Z 15) with 15; lra | change (inject_Z 40) with 40; lra |].
    change (inject_Z 15) with 15 in A. change (inject_Z 40) with 40 in B.
    split_all; intros; try discriminate; try assumption; lra.
Qed.

Lemma fallback_pe_ranges_witness :
  let d := getFallbackStockData sample_random "t" "INFY.NS" in
  exists draw,
    peRatio d = JNum (round1 draw)
    /\ (is_tech "INFY.NS" = true ->
        (20 <= draw /\ draw < 35) /\ 20 <= num (peRatio d) /\ num (peRatio d) <= 35)
    /\ (is_tech "INFY.NS" = false -> is_financial "INFY.NS" = true ->
        (10 <= draw /\ draw < 25) /\ 10 <= num (peRatio d) /\ num (peRatio d) <= 25)
    /\ (is_tech "INFY.NS" = false -> is_financial "INFY.NS" = false ->
        (15 <= draw /\ draw < 40) /\ 15 <= num (peRatio d) /\ num (peRatio d) <= 40).
Proof.
  apply (fallback_pe_ranges sample_random "t" "INFY.NS").
  intros k. destruct k as [| [| [| [| k]]]]; cbn; split; lra.
Defined.

(** * Further properties of the code *)

Local Open Scope Z_scope.
Local Close Scope Q_scope.

(** ** Normaliser *)

(** X1: a truthy field of the financials block takes precedence over
    the selected shape: [pe_ratio], [market_cap] and [revenue] over the
    fields of the same name, [net_income] over [earnings]. *)
Theorem financials_take_precedence sym iso response d :
  fst (parseGoogleFinanceResponse sym iso response) = Some d ->
  let fin := read response "financials" in
  (truthy (read_opt fin "pe_ratio") = true -> peRatio d = read_opt fin "pe_ratio")
  /\ (truthy (read_opt fin "market_cap") = true -> marketCap d = read_opt fin "market_cap")
  /\ (truthy (read_opt fin "net_income") = true -> earnings d = read_opt fin "net_income")
  /\ (truthy (read_opt fin "revenue") = true -> revenue d = read_opt fin "revenue").
Proof.
  intros H fin. destruct (nullish_dec response) as [Hn | [Hu Hn]].
  { rewrite parse_nullish in H by assumption. discriminate. }
  rewrite parse_closed in H by assumption. cbn [fst] in H.
  destruct (truthy (selected_shape response)); [| discriminate].
  injection H as <-. cbn [peRatio marketCap earnings revenue normalised].
  unfold financial_or. split_all; intros Hf; apply or_else_truthy; exact Hf.
Qed.

Lemma financials_take_precedence_witness :
  let response :=
    JObj [("summary", JObj [("price", JNum 1800); ("earnings", JStr "old")]);
          ("financials", JObj [("pe_ratio", JNum 21); ("net_income", JStr "new")])] in
  let d := normalised "X" "t" (read response "financials") (selected_shape response) in
  let fin := read response "financials" in
  (truthy (read_opt fin "pe_ratio") = true -> peRatio d = read_opt fin "pe_ratio")
  /\ (truthy (read_opt fin "market_cap") = true -> marketCap d = read_opt fin "market_cap")
  /\ (truthy (read_opt fin "net_income") = true -> earnings d = read_opt fin "net_income")
  /\ (truthy (read_opt fin "revenue") = true -> revenue d = read_opt fin "revenue").
Proof.
  cbv zeta. apply (financials_take_precedence "X" "t"). reflexivity.
Defined.

(** X2: the normaliser reads three properties of the response and
    nothing else: a property under any other name does not change the
    result. *)
Theorem unread_properties_ignored sym iso k v props :
  k <> "knowledge_graph" -> k <> "summary" -> k <> "financials" ->
  parseGoogleFinanceResponse sym iso (JObj ((k, v) :: props))
  = parseGoogleFinanceResponse sym iso (JObj props).
Proof.
  intros H1 H2 H3. rewrite !parse_closed by discriminate.
  assert (Hread : forall key, key <> k ->
            read (JObj ((k, v) :: props)) key = read (JObj props) key).
  { intros key Hk. unfold read. cbn [get assoc].
    apply String.eqb_neq in Hk. rewrite Hk. reflexivity. }
  unfold selected_shape. rewrite !Hread by congruence. reflexivity.
Qed.

Lemma unread_properties_ignored_witness :
  parseGoogleFinanceResponse "X" "t"
    (JObj (("search_metadata", JStr "ok") :: [("summary", JObj [("price", JNum 5)])]))
  = parseGoogleFinanceResponse "X" "t" (JObj [("summary", JObj [("price", JNum 5)])]).
Proof.
  apply (unread_properties_ignored "X" "t" "search_metadata"); discriminate.
Defined.

(** ** Symbol mapper *)

Lemma assoc_In {A} k (l : list (string * A)) v : assoc k l = Some v -> In (k, v) l.
Proof.
  induction l as [| [k' v'] rest IH]; cbn; [discriminate |].
  destruct (String.eqb_spec k k') as [-> | Hne].
  - intros [= ->]. left. reflexivity.
  - intros H. right. apply IH. exact H.
Qed.

Lemma mapping_shape :
  forallb (fun kv => String.eqb (fst kv) (stem (fst kv) ++ ".NS")
                     && String.eqb (snd kv) (stem (fst kv) ++ ":NSE"))%string
    STOCK_SYMBOL_MAPPINGS = true.
Proof. vm_compute. reflexivity. Qed.

Lemma mapping_fixed :
  forallb (fun kv => match mapSymbol (snd kv) with
                     | Name m => String.eqb m (snd kv)
                     | Builtin _ => false
                     end) STOCK_SYMBOL_MAPPINGS = true.
Proof. vm_compute. reflexivity. Qed.

Lemma inherited_not_mapped :
  forallb (fun k => match assoc k STOCK_SYMBOL_MAPPINGS with
                    | Some _ => false
                    | None => true
                    end) Object_prototype = true.
Proof. vm_compute. reflexivity. Qed.

Lemma inherited_In k : inherited k = true -> In k Object_prototype.
Proof.
  unfold inherited. intros H. apply existsb_exists in H as (x & Hx & E).
  apply String.eqb_eq in E. subst x. exact Hx.
Qed.

(** X3: the name a symbol is looked up under. A listed symbol, which
    ends in .NS, is mapped to the same stem followed by :NSE; a symbol
    that is neither listed nor a property name of Object.prototype is
    passed on as it is; for a property name of Object.prototype (such as
    constructor) the value passed on is not the symbol but the inherited
    member; and mapping a mapped name again changes nothing. *)
Theorem mapSymbol_spec sym :
  (forall m, assoc sym STOCK_SYMBOL_MAPPINGS = Some m ->
             mapSymbol sym = Name m
             /\ sym = (stem sym ++ ".NS")%string /\ m = (stem sym ++ ":NSE")%string)
  /\ (assoc sym STOCK_SYMBOL_MAPPINGS = None -> inherited sym = false ->
      mapSymbol sym = Name sym)
  /\ (inherited sym = true -> mapSymbol sym = Builtin sym)
  /\ (forall m, mapSymbol sym = Name m -> mapSymbol m = Name m).
Proof.
  assert (Hlisted : forall m, assoc sym STOCK_SYMBOL_MAPPINGS = Some m ->
            mapSymbol sym = Name m
            /\ sym = (stem sym ++ ".NS")%string /\ m = (stem sym ++ ":NSE")%string
            /\ mapSymbol m = Name m).
  { intros m Hm. unfold mapSymbol at 1. unfold member. rewrite Hm.
    apply assoc_In in Hm.
    pose proof (proj1 (forallb_forall _ _) mapping_shape (sym, m) Hm) as Hs.
    pose proof (proj1 (forallb_forall _ _) mapping_fixed (sym, m) Hm) as Hfix.
    cbn [fst snd] in Hs, Hfix. apply andb_true_iff in Hs as [Hk Hv].
    apply String.eqb_eq in Hk, Hv.
    assert (Hne : String.eqb m "" = false).
    { rewrite Hv. destruct (stem sym); reflexivity. }
    rewrite Hne. split_all; try assumption; try reflexivity.
    destruct (mapSymbol m) as [m' |]; [| discriminate].
    apply String.eqb_eq in Hfix. rewrite Hfix. reflexivity. }
  assert (Hinh : inherited sym = true -> mapSymbol sym = Builtin sym).
  { intros Hi. unfold mapSymbol, member.
    pose proof (proj1 (forallb_forall _ _) inherited_not_mapped sym (inherited_In sym Hi)) as H.
    cbv beta in H. revert H.
    destruct (assoc sym STOCK_SYMBOL_MAPPINGS); [discriminate |].
    intros _. rewrite Hi. reflexivity. }
  split_all.
  - intros m Hm. destruct (Hlisted m Hm) as (A & B & C & _). auto.
  - intros Hn Hi. unfold mapSymbol, member. rewrite Hn, Hi. reflexivity.
  - exact Hinh.
  - intros m Hm. destruct (assoc sym STOCK_SYMBOL_MAPPINGS) as [m0 |] eqn:Ha.
    + destruct (Hlisted m0 eq_refl) as (A & _ & _ & D). rewrite A in Hm.
      injection Hm as <-. exact D.
    + destruct (inherited sym) eqn:Hi.
      * rewrite (Hinh eq_refl) in Hm. discriminate.
      * unfold mapSymbol, member in Hm. rewrite Ha, Hi in Hm. injection Hm as <-.
        unfold mapSymbol, member. rewrite Ha, Hi. reflexivity.
Qed.

(** ** Client *)

(** X4: what a call of [fetchStockData] does to the outside. With a
    fresh entry it does nothing. Otherwise it sends exactly one request
    (engine google_finance, the mapped symbol, the client's key); it
    writes one [console.error] line when the reply is falsy and none
    when the reply is truthy, even if no record can be read from it; and
    it returns null exactly in those two cases. It never sets a timer
    and never changes the key. *)
Theorem fetchStockData_effects env sym (w : World) :
  let r := fst (fetchStockData env sym w) in
  let w' := snd (fetchStockData env sym w) in
  match fresh (now_check env) CACHE_DURATION (cache w !! sym) with
  | Some d => r = Normal (Some d) /\ w' = w
  | None =>
      requests w' = requests w ++ [request_for w sym]
      /\ console w'
         = console w ++ (if truthy (reply env) then []
                         else [("Error fetching data for " ++ sym ++ ":")%string])
      /\ r = Normal (settle_value sym (reply env) (iso_stamp env))
      /\ (r = Normal None
          <-> truthy (reply env) = false
              \/ truthy (selected_shape (reply env)) = false)
  end
  /\ apiKey w' = apiKey w /\ timers w' = timers w.
Proof.
  cbv zeta. unfold fetchStockData, fetch_begin.
  destruct (fresh (now_check env) CACHE_DURATION (cache w !! sym)) as [d |].
  - cbn [fst snd]. split_all; reflexivity.
  - rewrite fetch_settle_closed. unfold settle_value.
    destruct (truthy (reply env)); [destruct (truthy (selected_shape (reply env))) |];
      cbn [fst snd requests console apiKey timers set_cache issue console_error andb];
      rewrite ?app_nil_r; split_all; try reflexivity;
      try (split; [intros H; discriminate H | intros [H | H]; discriminate H]);
      try (split; [intros _; auto | reflexivity]).
Qed.

(** X5: whatever the strict read of [fetchStockData] serves from the
    cache, [getCachedData] serves too at the same moment; and when
    [getCachedData] has nothing, [fetchStockData] goes upstream. *)
Theorem strict_read_within_relaxed now sym (w : World) d :
  fresh now CACHE_DURATION (cache w !! sym) = Some d ->
  getCachedData now sym w = Some d
  /\ fst (fetch_begin now sym w) = Hit d.
Proof.
  intros H. unfold getCachedData, fetch_begin. rewrite H. split; [| reflexivity].
  apply fresh_some in H as (e & He & Hd & Hlt). apply fresh_some.
  exists e. unfold CACHE_DURATION in *. split_all; [assumption | assumption | lia].
Qed.

Lemma strict_read_within_relaxed_witness :
  getCachedData 14999 "HDFCBANK.NS" (sample_world 0) = Some (sample_quote "t0")
  /\ fst (fetch_begin 14999 "HDFCBANK.NS" (sample_world 0)) = Hit (sample_quote "t0").
Proof.
  apply (strict_read_within_relaxed 14999 "HDFCBANK.NS" (sample_world 0)). reflexivity.
Defined.

(** X6: a record that [fetchStockData] fetched from upstream is what
    [getCachedData] returns for the next 30000 ms after the write, and
    no longer. *)
Theorem fetched_record_is_served env sym (w w' : World) d :
  fresh (now_check env) CACHE_DURATION (cache w !! sym) = None ->
  fetchStockData env sym w = (Normal (Some d), w') ->
  forall now,
    (now - now_store env < 30000 -> getCachedData now sym w' = Some d)
    /\ (30000 <= now - now_store env -> getCachedData now sym w' = None).
Proof.
  intros Hmiss Hrun now. unfold fetchStockData, fetch_begin in Hrun.
  rewrite Hmiss, fetch_settle_closed in Hrun.
  destruct (truthy (reply env)); [| discriminate].
  destruct (truthy (selected_shape (reply env))); [| discriminate].
  injection Hrun as <- <-. unfold getCachedData, fresh, CACHE_DURATION.
  cbn [cache set_cache issue]. rewrite lookup_insert_eq. cbn [timestamp data].
  destruct (Z.ltb_spec (now - now_store env) (15000 * 2)); split; intros; try lia; reflexivity.
Qed.

Lemma fetched_record_is_served_witness :
  (50199 - 20200 < 30000 ->
   getCachedData 50199 "INFY.NS"
     (snd (fetchStockData {| now_check := 20000; reply := sample_reply;
                             now_store := 20200; iso_stamp := "t1" |}
             "INFY.NS" (newClient "demo_key")))
   = Some (normalised "INFY.NS" "t1" JUndefined (selected_shape sample_reply)))
  /\ (30000 <= 50199 - 20200 ->
      getCachedData 50199 "INFY.NS"
        (snd (fetchStockData {| now_check := 20000; reply := sample_reply;
                                now_store := 20200; iso_stamp := "t1" |}
                "INFY.NS" (newClient "demo_key")))
      = None).
Proof.
  apply (fetched_record_is_served
           {| now_check := 20000; reply := sample_reply;
              now_store := 20200; iso_stamp := "t1" |}
           "INFY.NS" (newClient "demo_key")).
  - reflexivity.
  - apply injective_projections; reflexivity.
Defined.

(** X7: the records keep their symbol. If every cache entry holds a
    record of the symbol it is filed under, this is still so after
    [fetchStockData], and the record it returns is a record of the
    symbol asked for. *)
Theorem fetchStockData_keeps_symbols env sym (w : World) :
  cache_consistent w ->
  cache_consistent (snd (fetchStockData env sym w))
  /\ (forall d, fst (fetchStockData env sym w) = Normal (Some d) -> symbol d = sym).
Proof.
  intros Hc. unfold fetchStockData, fetch_begin.
  destruct (fresh (now_check env) CACHE_DURATION (cache w !! sym)) as [d0 |] eqn:Hf.
  - cbn [fst snd]. split; [exact Hc |]. intros d [= <-].
    apply fresh_some in Hf as (e & He & <- & _). apply (Hc _ _ He).
  - rewrite fetch_settle_closed.
    destruct (truthy (reply env)); [destruct (truthy (selected_shape (reply env))) |];
      cbn [fst snd]; (split; [| intros d [= <-]; reflexivity || discriminate]);
      try exact Hc.
    intros s e. cbn [cache set_cache issue].
    destruct (decide (sym = s)) as [<- | Hne].
    + rewrite lookup_insert_eq. intros [= <-]. reflexivity.
    + rewrite lookup_insert_ne by exact Hne. apply Hc.
Qed.

Lemma fetchStockData_keeps_symbols_witness :
  cache_consistent
    (snd (fetchStockData {| now_check := 20000; reply := sample_reply;
                            now_store := 20200; iso_stamp := "t1" |}
            "INFY.NS" (sample_world 0)))
  /\ (forall d,
        fst (fetchStockData {| now_check := 20000; reply := sample_reply;
                               now_store := 20200; iso_stamp := "t1" |}
               "INFY.NS" (sample_world 0)) = Normal (Some d) ->
        symbol d = "INFY.NS").
Proof.
  apply (fetchStockData_keeps_symbols
           {| now_check := 20000; reply := sample_reply;
              now_store := 20200; iso_stamp := "t1" |}
           "INFY.NS" (sample_world 0)).
  intros s e. unfold sample_world. cbn [cache set_cache newClient].
  intros H. apply lookup_singleton_Some in H as [<- <-]. reflexivity.
Defined.

(** X8: entries are never evicted: a symbol that has an entry before a
    call of [fetchStockData] has one afterwards. *)
Theorem fetchStockData_never_evicts env sym (w : World) s :
  is_Some (cache w !! s) -> is_Some (cache (snd (fetchStockData env sym w)) !! s).
Proof.
  intros Hs. unfold fetchStockData, fetch_begin.
  destruct (fresh (now_check env) CACHE_DURATION (cache w !! sym)); [exact Hs |].
  rewrite fetch_settle_closed.
  destruct (truthy (reply env)); [destruct (truthy (selected_shape (reply env))) |];
    cbn [snd cache set_cache issue console_error]; try exact Hs.
  destruct (decide (sym = s)) as [<- | Hne].
  - rewrite lookup_insert_eq. eauto.
  - rewrite lookup_insert_ne by exact Hne. exact Hs.
Qed.

Lemma fetchStockData_never_evicts_witness :
  is_Some (cache (snd (fetchStockData
                         {| now_check := 20000; reply := JNull;
                            now_store := 20200; iso_stamp := "t1" |}
                         "HDFCBANK.NS" (sample_world 0))) !! "HDFCBANK.NS").
Proof.
  apply (fetchStockData_never_evicts _ "HDFCBANK.NS" (sample_world 0) "HDFCBANK.NS").
  eexists. reflexivity.
Defined.

(** X9: the singleton. The first call of [getSerpApiClient] builds a
    client with an empty cache whose key is SERPAPI_KEY, or demo_key
    when that is unset or empty; every later call returns that same
    client, whatever SERPAPI_KEY has become. *)
Theorem getSerpApiClient_singleton key1 key2 :
  let c := fst (getSerpApiClient key1 None) in
  let slot := snd (getSerpApiClient key1 None) in
  getSerpApiClient key2 slot = (c, slot)
  /\ cache c = ∅
  /\ apiKey c <> ""%string
  /\ (forall k, key1 = Some k -> k <> ""%string -> apiKey c = k)
  /\ (key1 = None \/ key1 = Some ""%string -> apiKey c = "demo_key"%string).
Proof.
  cbv zeta. unfold getSerpApiClient. cbn [fst snd newClient apiKey cache].
  split_all; try reflexivity.
  - destruct key1 as [k |]; [| discriminate].
    destruct (String.eqb_spec k ""); [discriminate | assumption].
  - intros k -> Hk. apply String.eqb_neq in Hk. rewrite Hk. reflexivity.
  - intros [-> | ->]; reflexivity.
Qed.

(** ** Batched fetcher *)

Lemma resume_all_world env start ts : forall r,
  apiKey (world (resume_all env start ts r)) = apiKey (world r)
  /\ (cache_consistent (world r) -> cache_consistent (world (resume_all env start ts r))).
Proof.
  induction ts as [| t ts IH]; intros r; [split; auto |].
  unfold resume_all. cbn [foldl]. fold (resume_all env start ts (resume_task env start t r)).
  destruct (IH (resume_task env start t r)) as [IH1 IH2].
  rewrite IH1, resume_task_world in *. cbn [apiKey setTimeout] in *.
  destruct (begun t).
  - split; [reflexivity |]. intros Hc. apply IH2. exact Hc.
  - pose proof (fetch_settle_world (tsym t) (up_reply (upstream env (pos t)))
                  (start + Z.of_N (up_latency (upstream env (pos t))))
                  (up_iso (upstream env (pos t))) (world r)) as (A & _ & _ & C).
    split; [exact A |]. intros Hc. apply IH2. intros s e. cbn [cache setTimeout].
    apply C. exact Hc.
Qed.

Lemma run_batch_requests env i symbols r :
  requests (world (run_batch env i symbols r))
  = requests (world r)
    ++ map (request_for (world r))
         (filter (fun s => stale (clock r) (world r) s = true) (take 3 (drop i symbols)))
  /\ apiKey (world (run_batch env i symbols r)) = apiKey (world r).
Proof.
  unfold run_batch. rewrite slice_take_drop.
  pose proof (begin_batch_tasks (clock r) (take 3 (drop i symbols)) i (world r))
    as (_ & Hreq & Hkey).
  destruct (begin_batch (clock r) i (take 3 (drop i symbols)) (world r)) as [tasks w1].
  cbn [fst snd] in *.
  match goal with |- context [foldl _ ?r1 ?ts] =>
    change (foldl _ r1 ts) with (resume_all env (clock r) ts r1);
    destruct (resume_all_spec env (clock r) ts r1) as (_ & _ & _ & Q & _);
    destruct (resume_all_world env (clock r) ts r1) as (K & _)
  end.
  rewrite Q, K. cbn [world]. split; assumption.
Qed.

(** X10: the requests of a run. [fetchMultipleStocks] sends at most
    one request per input symbol, each with engine google_finance, the
    client's key and the mapped name of an input symbol; it changes
    neither the key nor the requests sent before. *)
Theorem fetchMultipleStocks_requests env now symbols (w : World) :
  exists r new,
    fetchMultipleStocks env now symbols w = Some r
    /\ requests (world r) = requests w ++ new
    /\ (List.length new <= List.length symbols)%nat
    /\ Forall (fun p => engine p = "google_finance"%string
                        /\ api_key p = apiKey w
                        /\ exists s, s ∈ symbols /\ q p = mapSymbol s) new
    /\ apiKey (world r) = apiKey w.
Proof.
  destruct (fetchMultipleStocks_runs env now symbols w) as (r & Hrun & _ & B & _).
  set (P := fun r : Run =>
    apiKey (world r) = apiKey w
    /\ exists new,
         requests (world r) = requests w ++ new
         /\ (List.length new <= List.length (concat (batches r)))%nat
         /\ Forall (fun p => engine p = "google_finance"%string
                             /\ api_key p = apiKey w
                             /\ exists s, s ∈ concat (batches r) /\ q p = mapSymbol s) new).
  assert (HP : P r).
  { unfold fetchMultipleStocks in Hrun.
    eapply (batch_loop_invariant env symbols P); [| | | exact Hrun].
    - intros i r0 Hlt Hok (Hkey & new & Hreq & Hlen & Hall).
      pose proof (run_batch_requests env i symbols r0) as (Q1 & K1).
      pose proof (run_batch_spec env i symbols r0) as (_ & B1 & _).
      pose proof (batch_gap_world env i symbols (run_batch env i symbols r0)) as (Q2 & K2 & _).
      pose proof (batch_gap_spec env i symbols (run_batch env i symbols r0)) as (_ & B2 & _).
      unfold P. rewrite Q2, K2, B2, Q1, K1, B1, Hreq, concat_app. cbn [concat].
      rewrite app_nil_r. split; [exact Hkey |].
      set (batch := take 3 (drop i symbols)).
      exists (new ++ map (request_for (world r0))
                       (filter (fun s => stale (clock r0) (world r0) s = true) batch)).
      split_all.
      + rewrite app_assoc. reflexivity.
      + rewrite !length_app, length_map.
        pose proof (length_filter (fun s => stale (clock r0) (world r0) s = true) batch). lia.
      + apply Forall_app. split.
        * eapply Forall_impl; [exact Hall |]. intros p (E & K & s & Hs & Hq).
          split_all; try assumption. exists s. split; [| exact Hq].
          apply elem_of_app. left. exact Hs.
        * apply Forall_forall. intros p Hp. apply list_elem_of_fmap in Hp as (s & -> & Hs).
          apply list_elem_of_filter in Hs as [_ Hs]. unfold request_for. cbn.
          split_all; [reflexivity | exact Hkey |]. exists s. split; [| reflexivity].
          apply elem_of_app. right. exact Hs.
    - reflexivity.
    - unfold P. cbn. split; [reflexivity |]. exists []. rewrite app_nil_r.
      split_all; [reflexivity | cbn; lia | constructor]. }
  destruct HP as (Hkey & new & Hreq & Hlen & Hall).
  rewrite B, chunks_concat in Hlen, Hall.
  exists r, new. split_all; assumption.
Qed.

(** X11: one batch does not deduplicate. With at most three symbols
    the cache is consulted for all of them before any reply arrives, so
    a request goes out for every symbol without a fresh entry, in input
    order, a repeated symbol included. *)
Theorem single_batch_requests env now symbols (w : World) :
  (List.length symbols <= 3)%nat ->
  exists r,
    fetchMultipleStocks env now symbols w = Some r
    /\ requests (world r)
       = requests w ++ map (request_for w) (filter (fun s => stale now w s = true) symbols).
Proof.
  intros Hlen. destruct (fetchMultipleStocks_runs env now symbols w) as (r & Hrun & _).
  exists r. split; [exact Hrun |].
  unfold fetchMultipleStocks in Hrun. cbn [batch_loop] in Hrun.
  destruct (Nat.ltb_spec 0 (List.length symbols)) as [Hlt | Hge].
  - set (r0 := {| results := ∅; world := w; failure := None; clock := now;
                  batches := []; settled := [] |}) in *.
    pose proof (run_batch_spec env 0 symbols r0) as (F & _).
    pose proof (run_batch_requests env 0 symbols r0) as (Q & _).
    rewrite F in Hrun. cbn [failure r0] in Hrun.
    destruct (List.length symbols) as [| n] eqn:Hn; [lia |].
    cbn [batch_loop] in Hrun.
    destruct (Nat.ltb_spec (0 + batchSize) (List.length symbols)) as [Habs | _];
      [unfold batchSize in Habs; lia |].
    injection Hrun as <-.
    pose proof (batch_gap_world env 0 symbols (run_batch env 0 symbols r0)) as (Q2 & _).
    rewrite Q2, Q. cbn [world clock r0]. rewrite drop_0, take_ge by lia. reflexivity.
  - injection Hrun as <-. destruct symbols; [| cbn in Hge; lia].
    cbn. rewrite app_nil_r. reflexivity.
Qed.

Lemma single_batch_requests_witness :
  exists r,
    fetchMultipleStocks sample_env 0 ["INFY.NS"; "INFY.NS"] (newClient "demo_key") = Some r
    /\ requests (world r)
       = requests (newClient "demo_key")
         ++ map (request_for (newClient "demo_key"))
              (filter (fun s => stale 0 (newClient "demo_key") s = true)
                 ["INFY.NS"; "INFY.NS"]).
Proof.
  apply (single_batch_requests sample_env 0 ["INFY.NS"; "INFY.NS"] (newClient "demo_key")).
  cbn. lia.
Defined.

(** X12: an empty list of symbols: the call returns an empty map at
    once, with no request, no timer and no change to the client. *)
Theorem fetchMultipleStocks_empty env now (w : World) :
  fetchMultipleStocks env now [] w
  = Some {| results := ∅; world := w; failure := None; clock := now;
            batches := []; settled := [] |}.
Proof. reflexivity. Qed.

Lemma run_batch_consistent env i symbols r :
  cache_consistent (world r) ->
  cache_consistent (world (run_batch env i symbols r))
  /\ (forall s d, (s, Some d) ∈ settled (run_batch env i symbols r) ->
                  (s, Some d) ∈ settled r \/ symbol d = s).
Proof.
  intros Hc. unfold run_batch.
  pose proof (begin_batch_tasks (clock r) (slice i (i + batchSize) symbols) i (world r))
    as (Hhits & _).
  pose proof (begin_batch_spec (clock r) (slice i (i + batchSize) symbols) i (world r))
    as (_ & _ & _ & Hcache).
  destruct (begin_batch (clock r) i (slice i (i + batchSize) symbols) (world r))
    as [tasks w1]. cbn [fst snd] in *.
  match goal with |- context [foldl _ ?r1 ?ts] =>
    change (foldl _ r1 ts) with (resume_all env (clock r) ts r1);
    destruct (resume_all_spec env (clock r) ts r1) as (_ & _ & _ & _ & S & _);
    destruct (resume_all_world env (clock r) ts r1) as (_ & C)
  end.
  split.
  - apply C. cbn [world]. intros s e. rewrite Hcache. apply Hc.
  - intros s d Hin. rewrite S in Hin. cbn [settled] in Hin.
    apply elem_of_app in Hin as [Hin | Hin]; [left; exact Hin | right].
    apply list_elem_of_fmap in Hin as (t & [= -> Hv] & Ht).
    rewrite (resume_order_perm env tasks) in Ht.
    rewrite Forall_forall in Hhits. specialize (Hhits t Ht).
    unfold task_value in Hv. destruct (begun t) as [d0 |].
    + injection Hv as <-. apply fresh_some in Hhits as (e & He & <- & _).
      apply (Hc _ _ He).
    + unfold settle_value in Hv.
      destruct (truthy _ && truthy _); [| discriminate].
      injection Hv as ->. reflexivity.
Qed.

(** X13: the records of a run keep their symbol. If every cache entry
    holds a record of the symbol it is filed under, then so does every
    entry of the map [fetchMultipleStocks] returns, and the cache still
    does afterwards. *)
Theorem fetchMultipleStocks_keeps_symbols env now symbols (w : World) :
  cache_consistent w ->
  exists r,
    fetchMultipleStocks env now symbols w = Some r
    /\ (forall s d, results r !! s = Some d -> symbol d = s)
    /\ cache_consistent (world r).
Proof.
  intros Hc. destruct (fetchMultipleStocks_runs env now symbols w)
    as (r & Hrun & _ & _ & _ & _ & R & _).
  exists r. split; [exact Hrun |].
  set (P := fun r : Run =>
    cache_consistent (world r)
    /\ forall s d, (s, Some d) ∈ settled r -> symbol d = s).
  assert (HP : P r).
  { unfold fetchMultipleStocks in Hrun.
    eapply (batch_loop_invariant env symbols P); [| | | exact Hrun].
    - intros i r0 _ _ (Hc0 & Hs0).
      destruct (run_batch_consistent env i symbols r0 Hc0) as (Hc1 & Hs1).
      pose proof (batch_gap_world env i symbols (run_batch env i symbols r0)) as (_ & _ & C2).
      pose proof (batch_gap_spec env i symbols (run_batch env i symbols r0)) as (_ & _ & S2 & _).
      split.
      + intros s e. rewrite C2. apply Hc1.
      + intros s d. rewrite S2. intros Hin. apply Hs1 in Hin as [Hin | Hin]; auto.
    - reflexivity.
    - split; [exact Hc |]. intros s d Hin. cbn in Hin. inversion Hin. }
  destruct HP as (Hc' & Hs'). split; [| exact Hc'].
  intros s d Hd. rewrite R in Hd. apply record_outcomes_lookup in Hd as [Hd | Hd].
  - rewrite lookup_empty in Hd. discriminate.
  - apply Hs'. exact Hd.
Qed.

Lemma fetchMultipleStocks_keeps_symbols_witness :
  exists r,
    fetchMultipleStocks sample_env 0 ["HDFCBANK.NS"; "INFY.NS"] (sample_world 0) = Some r
    /\ (forall s d, results r !! s = Some d -> symbol d = s)
    /\ cache_consistent (world r).
Proof.
  apply (fetchMultipleStocks_keeps_symbols sample_env 0 ["HDFCBANK.NS"; "INFY.NS"]
           (sample_world 0)).
  intros s e. unfold sample_world. cbn [cache set_cache newClient].
  intros H. apply lookup_singleton_Some in H as [<- <-]. reflexivity.
Defined.

Lemma resume_task_results env start t r :
  results (resume_task env start t r)
  = match task_value env t with
    | Some d => <[tsym t := d]> (results r)
    | None => results r
    end.
Proof.
  destruct (resume_task_spec env start t r) as (w1 & -> & _). cbn [results].
  unfold record_outcomes. cbn. reflexivity.
Qed.

Lemma resume_task_cached env start t r :
  match begun t with
  | Hit d => exists e, cache (world r) !! tsym t = Some e /\ data e = d
  | Pending => True
  end ->
  results_cached r ->
  results_cached (resume_task env start t r)
  /\ (is_hit t = true -> cache (world (resume_task env start t r)) = cache (world r)).
Proof.
  intros Ht Hinv. unfold results_cached.
  rewrite resume_task_results, resume_task_world. cbn [cache setTimeout].
  unfold task_value, is_hit. destruct (begun t) as [d0 |].
  - split; [| reflexivity]. intros s d.
    destruct (decide (tsym t = s)) as [<- | Hne].
    + rewrite lookup_insert_eq. intros [= <-]. exact Ht.
    + rewrite lookup_insert_ne by exact Hne. apply Hinv.
  - split; [| discriminate]. rewrite fetch_settle_cache.
    destruct (settle_value _ _ _) as [v |]; [| exact Hinv].
    intros s d. destruct (decide (tsym t = s)) as [<- | Hne].
    + rewrite !lookup_insert_eq. intros [= <-]. eexists. split; reflexivity.
    + rewrite !lookup_insert_ne by exact Hne. apply Hinv.
Qed.

Lemma resume_hits_cached env start ts : forall r,
  Forall (fun t => match begun t with
                   | Hit d => exists e, cache (world r) !! tsym t = Some e /\ data e = d
                   | Pending => False
                   end) ts ->
  results_cached r ->
  results_cached (resume_all env start ts r)
  /\ cache (world (resume_all env start ts r)) = cache (world r).
Proof.
  induction ts as [| t ts IH]; intros r Hall Hinv; [split; [exact Hinv | reflexivity] |].
  inversion Hall as [| ? ? Ht Hts]; subst.
  unfold resume_all. cbn [foldl]. fold (resume_all env start ts (resume_task env start t r)).
  destruct (resume_task_cached env start t r) as [Hinv' Hcache]; [| exact Hinv |].
  { destruct (begun t); [exact Ht | exact I]. }
  assert (Hhit : is_hit t = true) by (unfold is_hit; destruct (begun t); [reflexivity | destruct Ht]).
  specialize (Hcache Hhit).
  destruct (IH (resume_task env start t r)) as [I1 I2]; [| exact Hinv' |].
  - rewrite Hcache. exact Hts.
  - split; [exact I1 |]. rewrite I2. exact Hcache.
Qed.

Lemma resume_pending_cached env start ts : forall r,
  Forall (fun t => is_hit t = false) ts ->
  results_cached r -> results_cached (resume_all env start ts r).
Proof.
  induction ts as [| t ts IH]; intros r Hall Hinv; [exact Hinv |].
  inversion Hall as [| ? ? Ht Hts]; subst.
  unfold resume_all. cbn [foldl]. fold (resume_all env start ts (resume_task env start t r)).
  apply IH; [exact Hts |]. apply resume_task_cached; [| exact Hinv].
  unfold is_hit in Ht. destruct (begun t); [discriminate | exact I].
Qed.

Lemma run_batch_cached env i symbols r :
  results_cached r -> results_cached (run_batch env i symbols r).
Proof.
  intros Hinv. unfold run_batch.
  pose proof (begin_batch_tasks (clock r) (slice i (i + batchSize) symbols) i (world r))
    as (Hhits & _).
  pose proof (begin_batch_spec (clock r) (slice i (i + batchSize) symbols) i (world r))
    as (_ & _ & _ & Hcache).
  destruct (begin_batch (clock r) i (slice i (i + batchSize) symbols) (world r))
    as [tasks w1]. cbn [fst snd] in *.
  set (r1 := {| results := results r; world := w1; failure := failure r;
                clock := clock r;
                batches := batches r ++ [slice i (i + batchSize) symbols];
                settled := settled r |}).
  assert (Hinv1 : results_cached r1).
  { intros s d. cbn [results world r1]. rewrite Hcache. apply Hinv. }
  unfold resume_order. rewrite foldl_app.
  fold (resume_all env (clock r) (filter (fun t => is_hit t = true) tasks) r1).
  match goal with |- results_cached (foldl _ ?r2 ?ts) =>
    change (results_cached (resume_all env (clock r) ts r2)) end.
  apply resume_pending_cached.
  - rewrite (sort_by_latency_perm env). apply Forall_forall.
    intros t Ht. apply list_elem_of_filter in Ht as [Ht _]. exact Ht.
  - apply resume_hits_cached; [| exact Hinv1].
    apply Forall_forall. intros t Ht. apply list_elem_of_filter in Ht as [Hh Ht].
    rewrite Forall_forall in Hhits. specialize (Hhits t Ht).
    unfold is_hit in Hh. destruct (begun t) as [d |]; [| discriminate].
    apply fresh_some in Hhits as (e & He & Hd & _).
    exists e. cbn [world r1]. rewrite Hcache. split; assumption.
Qed.

(** X19: the returned map agrees with the cache. After
    [fetchMultipleStocks], every record of the result map is the record
    the cache holds for that symbol. *)
Theorem fetchMultipleStocks_results_cached env now symbols (w : World) :
  exists r,
    fetchMultipleStocks env now symbols w = Some r
    /\ forall s d, results r !! s = Some d ->
                   exists e, cache (world r) !! s = Some e /\ data e = d.
Proof.
  destruct (fetchMultipleStocks_runs env now symbols w) as (r & Hrun & _).
  exists r. split; [exact Hrun |].
  change (results_cached r). unfold fetchMultipleStocks in Hrun.
  eapply (batch_loop_invariant env symbols results_cached); [| | | exact Hrun].
  - intros i r0 _ _ Hinv. apply (run_batch_cached env i symbols) in Hinv.
    pose proof (batch_gap_world env i symbols (run_batch env i symbols r0)) as (_ & _ & C).
    pose proof (batch_gap_spec env i symbols (run_batch env i symbols r0)) as (_ & _ & _ & R & _).
    intros s d. rewrite R, C. apply Hinv.
  - reflexivity.
  - intros s d H. cbn in H. rewrite lookup_empty in H. discriminate.
Qed.

Lemma resume_all_keeps_entries env start ts s : forall r,
  is_Some (cache (world r) !! s) ->
  is_Some (cache (world (resume_all env start ts r)) !! s).
Proof.
  induction ts as [| t ts IH]; intros r Hs; [exact Hs |].
  unfold resume_all. cbn [foldl]. fold (resume_all env start ts (resume_task env start t r)).
  apply IH. rewrite resume_task_world. cbn [cache setTimeout].
  destruct (begun t); [exact Hs |]. rewrite fetch_settle_cache.
  destruct (settle_value _ _ _); [| exact Hs].
  destruct (decide (tsym t = s)) as [<- | Hne].
  - rewrite lookup_insert_eq. eauto.
  - rewrite lookup_insert_ne by exact Hne. exact Hs.
Qed.

(** X22: a run never evicts: a symbol that has a cache entry before
    [fetchMultipleStocks] has one afterwards. *)
Theorem fetchMultipleStocks_never_evicts env now symbols (w : World) s :
  is_Some (cache w !! s) ->
  exists r,
    fetchMultipleStocks env now symbols w = Some r
    /\ is_Some (cache (world r) !! s).
Proof.
  intros Hs. destruct (fetchMultipleStocks_runs env now symbols w) as (r & Hrun & _).
  exists r. split; [exact Hrun |]. unfold fetchMultipleStocks in Hrun.
  eapply (batch_loop_invariant env symbols
            (fun r => is_Some (cache (world r) !! s))); [| | | exact Hrun].
  - intros i r0 _ _ H0.
    pose proof (batch_gap_world env i symbols (run_batch env i symbols r0)) as (_ & _ & C).
    rewrite C. unfold run_batch.
    pose proof (begin_batch_spec (clock r0) (slice i (i + batchSize) symbols) i (world r0))
      as (_ & _ & _ & Hcache).
    destruct (begin_batch (clock r0) i (slice i (i + batchSize) symbols) (world r0))
      as [tasks w1]. cbn [snd] in Hcache.
    match goal with |- context [foldl _ ?r1 ?ts] =>
      change (foldl _ r1 ts) with (resume_all env (clock r0) ts r1) end.
    apply resume_all_keeps_entries. cbn [world]. rewrite Hcache. exact H0.
  - reflexivity.
  - exact Hs.
Qed.

Lemma fetchMultipleStocks_never_evicts_witness :
  exists r,
    fetchMultipleStocks (prompt JNull) 20000 ["HDFCBANK.NS"; "INFY.NS"] (sample_world 0)
    = Some r
    /\ is_Some (cache (world r) !! "HDFCBANK.NS").
Proof.
  apply (fetchMultipleStocks_never_evicts (prompt JNull) 20000 ["HDFCBANK.NS"; "INFY.NS"]
           (sample_world 0) "HDFCBANK.NS").
  eexists. reflexivity.
Defined.

(** X23: waiting never makes an entry fresh. If [getCachedData] has
    nothing for a symbol at some moment, then at any later moment (the
    cache unchanged) it still has nothing and [fetchStockData] goes
    upstream. *)
Theorem stale_stays_stale now now' sym (w : World) :
  getCachedData now sym w = None ->
  now <= now' ->
  getCachedData now' sym w = None
  /\ fst (fetch_begin now' sym w) = Pending.
Proof.
  unfold getCachedData, fetch_begin. intros H Hle.
  apply fresh_none in H.
  assert (H1 : fresh now' (CACHE_DURATION * 2) (cache w !! sym) = None).
  { apply fresh_none. destruct H as [H | (e & He & Hage)]; [left; exact H |].
    right. exists e. split; [exact He | lia]. }
  assert (H2 : fresh now' CACHE_DURATION (cache w !! sym) = None).
  { apply fresh_none. destruct H as [H | (e & He & Hage)]; [left; exact H |].
    right. exists e. split; [exact He | unfold CACHE_DURATION in *; lia]. }
  rewrite H1, H2. split; reflexivity.
Qed.

Lemma stale_stays_stale_witness :
  getCachedData 40000 "HDFCBANK.NS" (sample_world 0) = None
  /\ fst (fetch_begin 40000 "HDFCBANK.NS" (sample_world 0)) = Pending.
Proof.
  apply (stale_stays_stale 30000 40000 "HDFCBANK.NS" (sample_world 0)).
  - reflexivity.
  - lia.
Defined.

(** ** More on the normaliser *)

(** X20: the three numeric fields of a normalised record are never
    undefined, null or otherwise falsy: each is either the truthy value
    read from the shape or the number 0. *)
Theorem normalised_numbers_defined sym iso response d :
  fst (parseGoogleFinanceResponse sym iso response) = Some d ->
  (truthy (price d) = true \/ price d = JNum 0)
  /\ (truthy (change d) = true \/ change d = JNum 0)
  /\ (truthy (changePercent d) = true \/ changePercent d = JNum 0)
  /\ symbol d = sym /\ lastUpdated d = iso.
Proof.
  intros H. destruct (nullish_dec response) as [Hn | [Hu Hn]].
  { rewrite parse_nullish in H by assumption. discriminate. }
  rewrite parse_closed in H by assumption. cbn [fst] in H.
  destruct (truthy (selected_shape response)); [| discriminate].
  injection H as <-. cbn [price change changePercent symbol lastUpdated normalised].
  unfold or_else. split_all; try reflexivity;
    match goal with |- context [if truthy ?x then _ else _] =>
      destruct (truthy x) eqn:E; [left; exact E | right; reflexivity] end.
Qed.

Lemma normalised_numbers_defined_witness :
  let d := sample_quote "t" in
  (truthy (price d) = true \/ price d = JNum 0)
  /\ (truthy (change d) = true \/ change d = JNum 0)
  /\ (truthy (changePercent d) = true \/ changePercent d = JNum 0)
  /\ symbol d = "HDFCBANK.NS"%string /\ lastUpdated d = "t"%string.
Proof.
  apply (normalised_numbers_defined "HDFCBANK.NS" "t" sample_reply). reflexivity.
Defined.

(** X21: only an object can be normalised: for a reply that is a
    number, a string, a boolean, an array, null or undefined the
    normaliser returns null. *)
Theorem non_object_reply_gives_null sym iso response :
  (forall props, response <> JObj props) ->
  fst (parseGoogleFinanceResponse sym iso response) = None.
Proof.
  intros Hobj. destruct (nullish_dec response) as [Hn | [Hu Hn]].
  { rewrite parse_nullish by assumption. reflexivity. }
  rewrite parse_closed by assumption. cbn [fst].
  destruct response; try reflexivity.
  exfalso. eapply Hobj. reflexivity.
Qed.

Lemma non_object_reply_gives_null_witness :
  fst (parseGoogleFinanceResponse "X" "t" (JStr "Too many requests")) = None.
Proof.
  apply (non_object_reply_gives_null "X" "t" (JStr "Too many requests")).
  intros props. discriminate.
Defined.

(** ** Fallback synthesiser and simulated provider *)

Local Open Scope Q_scope.






Lemma toFixed0_between x (lo hi : Z) :
  inject_Z lo <= x -> x < inject_Z hi ->
  exists z, toFixed0 x = pretty z /\ (lo <= z <= hi)%Z.
Proof.
  intros Hlo Hhi. unfold toFixed0. eexists. split; [reflexivity |].
  destruct (Math_round_between x lo hi) as [A B]; [lra | lra |].
  unfold Math_round in A, B. rewrite <- Zle_Qle in A, B. lia.
Qed.

(** X15: the currency strings of the fallback are a rupee sign, a whole
    number and the suffix Cr; the number lies in [10000, 110000] for
    marketCap, [500, 5500] for earnings and [2000, 22000] for revenue. *)
Theorem fallback_currency_strings random iso sym :
  (forall k, 0 <= random k /\ random k < 1) ->
  let d := getFallbackStockData random iso sym in
  exists zm ze zr : Z,
    marketCap d = JStr ("₹" ++ pretty zm ++ " Cr")%string
    /\ (10000 <= zm <= 110000)%Z
    /\ earnings d = JStr ("₹" ++ pretty ze ++ " Cr")%string
    /\ (500 <= ze <= 5500)%Z
    /\ revenue d = JStr ("₹" ++ pretty zr ++ " Cr")%string
    /\ (2000 <= zr <= 22000)%Z.
Proof.
  intros Hrand. cbv zeta. unfold getFallbackStockData.
  assert (H : forall k,
    exists zm ze zr : Z,
      crore (random k * 100000 + 10000) = JStr ("₹" ++ pretty zm ++ " Cr")%string
      /\ (10000 <= zm <= 110000)%Z
      /\ crore (random (S k) * 5000 + 500) = JStr ("₹" ++ pretty ze ++ " Cr")%string
      /\ (500 <= ze <= 5500)%Z
      /\ crore (random (S (S k)) * 20000 + 2000) = JStr ("₹" ++ pretty zr ++ " Cr")%string
      /\ (2000 <= zr <= 22000)%Z).
  { intros k. destruct (Hrand k) as [A A']. destruct (Hrand (S k)) as [B B'].
    destruct (Hrand (S (S k))) as [C C'].
    destruct (toFixed0_between (random k * 100000 + 10000) 10000 110000)
      as (zm & Em & Hm);
      [change (inject_Z 10000) with 10000; lra | change (inject_Z 110000) with 110000; lra |].
    destruct (toFixed0_between (random (S k) * 5000 + 500) 500 5500)
      as (ze & Ee & He);
      [change (inject_Z 500) with 500; lra | change (inject_Z 5500) with 5500; lra |].
    destruct (toFixed0_between (random (S (S k)) * 20000 + 2000) 2000 22000)
      as (zr & Er & Hr);
      [change (inject_Z 2000) with 2000; lra | change (inject_Z 22000) with 22000; lra |].
    exists zm, ze, zr. unfold crore. rewrite Em, Ee, Er. split_all; try reflexivity; lia. }
  destruct (lookup_or basePrices sym 1000) as [p |];
    [destruct (quote_numbers _ _ _) as [[? ?] ?] |];
    (destruct (includes sym "TECH" || includes sym "INFY" || includes sym "LTIM");
     [| destruct (includes sym "BANK" || includes sym "FINANCE")]);
    cbn [marketCap earnings revenue]; apply H.
Qed.

Lemma fallback_currency_strings_witness :
  let d := getFallbackStockData sample_random "t" "INFY.NS" in
  exists zm ze zr : Z,
    marketCap d = JStr ("₹" ++ pretty zm ++ " Cr")%string
    /\ (10000 <= zm <= 110000)%Z
    /\ earnings d = JStr ("₹" ++ pretty ze ++ " Cr")%string
    /\ (500 <= ze <= 5500)%Z
    /\ revenue d = JStr ("₹" ++ pretty zr ++ " Cr")%string
    /\ (2000 <= zr <= 22000)%Z.
Proof.
  apply (fallback_currency_strings sample_random "t" "INFY.NS").
  intros k. destruct k as [| [| [| [| k]]]]; cbn; split; lra.
Defined.

Lemma simulate_spec random : forall symbols k (acc : gmap string GoogleFinanceData) s,
  (is_Some (simulate random k symbols acc !! s) <-> s ∈ symbols \/ is_Some (acc !! s))
  /\ (forall d, simulate random k symbols acc !! s = Some d ->
                acc !! s = Some d
                \/ exists j, g_symbol d = s /\ g_peRatio d = 15 + random j * 25).
Proof.
  induction symbols as [| s0 rest IH]; intros k acc s.
  - cbn. split.
    + split; [auto |]. intros [H | H]; [inversion H | exact H].
    + auto.
  - cbn [simulate]. destruct (IH (k + 3)%nat
      (<[s0 := {| g_symbol := s0; g_peRatio := 15 + random k * 25;
                  g_earnings := crore (random (k + 1)%nat * 50000 + 5000);
                  g_revenue := crore (random (k + 2)%nat * 100000 + 10000) |}]> acc) s)
      as [IH1 IH2].
    split.
    + rewrite IH1. destruct (decide (s0 = s)) as [-> | Hne].
      * rewrite lookup_insert_eq. split; intros _; [left; left | right; eauto].
      * rewrite lookup_insert_ne by exact Hne. rewrite elem_of_cons. split.
        -- intros [H | H]; auto.
        -- intros [[H | H] | H]; auto. congruence.
    + intros d Hd. apply IH2 in Hd as [Hd | Hd]; [| right; exact Hd].
      destruct (decide (s0 = s)) as [-> | Hne].
      * rewrite lookup_insert_eq in Hd. injection Hd as <-. right. exists k. split; reflexivity.
      * rewrite lookup_insert_ne in Hd by exact Hne. left. exact Hd.
Qed.

(** X16: the simulated provider returns an entry for exactly the
    symbols it was given; each entry carries its own symbol and a
    peRatio between 15 and 40, both ends included. *)
Theorem simulated_provider_covers_symbols random symbols :
  (forall k, 0 <= random k /\ random k < 1) ->
  forall s,
    (is_Some (fetchGoogleFinanceData random symbols !! s) <-> s ∈ symbols)
    /\ (forall d, fetchGoogleFinanceData random symbols !! s = Some d ->
                  g_symbol d = s /\ 15 <= g_peRatio d /\ g_peRatio d <= 40).
Proof.
  intros Hrand s. unfold fetchGoogleFinanceData.
  destruct (simulate_spec random symbols 0 ∅ s) as [H1 H2]. split.
  - rewrite H1, lookup_empty. split; [| auto].
    intros [H | [x Hx]]; [exact H | discriminate].
  - intros d Hd. apply H2 in Hd as [Hd | (j & Hs & Hpe)].
    + rewrite lookup_empty in Hd. discriminate.
    + rewrite Hpe. destruct (Hrand j). split_all; [exact Hs | lra | lra].
Qed.

Lemma simulated_provider_covers_symbols_witness :
  (is_Some (fetchGoogleFinanceData sample_random ["INFY.NS"; "LTIM.NS"] !! "LTIM.NS")
   <-> "LTIM.NS" ∈ ["INFY.NS"; "LTIM.NS"]%string)
  /\ (forall d, fetchGoogleFinanceData sample_random ["INFY.NS"; "LTIM.NS"] !! "LTIM.NS"
                = Some d ->
                g_symbol d = "LTIM.NS"%string /\ 15 <= g_peRatio d /\ g_peRatio d <= 40).
Proof.
  apply (simulated_provider_covers_symbols sample_random ["INFY.NS"; "LTIM.NS"]%string).
  intros k. destruct k as [| [| [| [| k]]]]; cbn; split; lra.
Defined.

(** X17: the two base-price tables. The helper of the simulated
    provider and the fallback synthesiser find the same base price for
    every symbol listed in both tables except TANLA.NS (800 there, 480
    here), and for every symbol listed in neither. *)
Theorem base_price_tables_agree sym :
  (assoc sym basePrices <> None -> assoc sym stockDataBasePrices <> None ->
   sym <> "TANLA.NS"%string ->
   getBasePriceForSymbol sym = lookup_or basePrices sym 1000)
  /\ (assoc sym basePrices = None -> assoc sym stockDataBasePrices = None ->
      getBasePriceForSymbol sym = lookup_or basePrices sym 1000)
  /\ getBasePriceForSymbol "TANLA.NS" = Price 800
  /\ lookup_or basePrices "TANLA.NS" 1000 = Price 480.
Proof.
  split_all; try reflexivity.
  - intros H1 H2 Hne. destruct (assoc sym basePrices) as [p |] eqn:Hp; [| congruence].
    clear H1. apply assoc_In in Hp. unfold basePrices in Hp. cbn [In] in Hp.
    repeat (destruct Hp as [Hp | Hp];
            [injection Hp as <- <-; first [reflexivity | exfalso; apply H2; reflexivity
                                          | exfalso; apply Hne; reflexivity] |]).
    destruct Hp.
  - intros H1 H2. unfold getBasePriceForSymbol, lookup_or, member.
    rewrite H1, H2. reflexivity.
Qed.

Local Close Scope Q_scope.

(** ** Substring test *)

Lemma prefix_app (p s : string) :
  String.prefix p s = true <-> exists rest, s = (p ++ rest)%string.
Proof.
  revert s. induction p as [| a p IH]; intros s.
  - split; [intros _; exists s; reflexivity | intros _; destruct s; reflexivity].
  - destruct s as [| b s]; cbn;
      [split; [discriminate | intros [rest H]; discriminate] |].
    destruct (Ascii.ascii_dec a b) as [-> | Hne].
    + rewrite IH. split; intros [rest H]; exists rest; [rewrite H; reflexivity |].
      injection H as ->. reflexivity.
    + split; [discriminate |]. intros [rest H]. injection H as -> _. congruence.
Qed.

(** [includes] is the substring test: it holds exactly when the text
    is some text, then the needle, then some text. *)
Lemma includes_substring hay needle :
  includes hay needle = true
  <-> exists before after, hay = (before ++ needle ++ after)%string.
Proof.
  induction hay as [| c hay IH].
  - cbn [includes]. rewrite orb_false_r, prefix_app. split.
    + intros [rest H]. exists ""%string, rest. exact H.
    + intros (before & after & H). destruct before as [| b before]; [| discriminate].
      exists after. exact H.
  - cbn [includes]. rewrite orb_true_iff, prefix_app, IH. split.
    + intros [[rest H] | (before & after & H)].
      * exists ""%string, rest. exact H.
      * exists (String c before), after. rewrite H. reflexivity.
    + intros (before & after & H). destruct before as [| b before].
      * left. exists after. exact H.
      * right. injection H as -> H. exists before, after. exact H.
Qed.

(** X18: the sector of a symbol in the fallback. A symbol takes the
    technology range exactly when TECH, INFY or LTIM occurs in it as a
    substring, and the financial range exactly when none of these does
    and BANK or FINANCE occurs in it. *)
Theorem sector_tests_are_substring_tests random iso sym :
  let occurs marker := exists before after, sym = (before ++ marker ++ after)%string in
  let tech := occurs "TECH"%string \/ occurs "INFY"%string \/ occurs "LTIM"%string in
  let financial := occurs "BANK"%string \/ occurs "FINANCE"%string in
  (tech -> peRatio (getFallbackStockData random iso sym)
           = JNum (round1 (20 + random 3%nat * 15)%Q))
  /\ (~ tech -> financial ->
      peRatio (getFallbackStockData random iso sym)
      = JNum (round1 (10 + random 3%nat * 15)%Q))
  /\ (~ tech -> ~ financial ->
      peRatio (getFallbackStockData random iso sym)
      = JNum (round1 (15 + random 2%nat * 25)%Q)).
Proof.
  cbv zeta. rewrite (fallback_pe random iso sym).
  assert (Ht : is_tech sym = true
               <-> (exists before after, sym = (before ++ "TECH" ++ after)%string)
                   \/ (exists before after, sym = (before ++ "INFY" ++ after)%string)
                   \/ (exists before after, sym = (before ++ "LTIM" ++ after)%string)).
  { unfold is_tech. rewrite !orb_true_iff, !includes_substring. tauto. }
  assert (Hf : is_financial sym = true
               <-> (exists before after, sym = (before ++ "BANK" ++ after)%string)
                   \/ (exists before after, sym = (before ++ "FINANCE" ++ after)%string)).
  { unfold is_financial. rewrite !orb_true_iff, !includes_substring. tauto. }
  split_all.
  - intros H. apply Ht in H. rewrite H. reflexivity.
  - intros Hn H. apply Hf in H. rewrite H.
    destruct (is_tech sym) eqn:E; [| reflexivity]. exfalso. apply Hn, Ht. reflexivity.
  - intros Hn Hn'. destruct (is_tech sym) eqn:E; [exfalso; apply Hn, Ht; reflexivity |].
    destruct (is_financial sym) eqn:E'; [exfalso; apply Hn', Hf; reflexivity |].
    reflexivity.
Qed.
